(** * A shallow embedding of the DTLS CoAP client of coap-rs
    (src/dtls_client.rs), with the parts of its collaborators that the
    client's behaviour depends on. *)

From Stdlib Require Import ZArith String Ascii List Bool Lia.
Import ListNotations.
Open Scope string_scope.
Open Scope Z_scope.

(** ** Errors and results *)

(** [std::io::ErrorKind], restricted to the kinds the client produces or
    receives. *)
Inductive ErrorKind :=
| NotFound
| InvalidInput
| WouldBlock
| TimedOut
| Other.

Definition ErrorKind_eqb (a b : ErrorKind) : bool :=
  match a, b with
  | NotFound, NotFound | InvalidInput, InvalidInput | WouldBlock, WouldBlock
  | TimedOut, TimedOut | Other, Other => true
  | _, _ => false
  end.

(** [std::io::Result]. *)
Inductive result (A : Type) :=
| Ok (a : A)
| Err (e : ErrorKind).
Arguments Ok {A} a.
Arguments Err {A} e.

(** A Rust computation either returns, panics (an [unwrap] on an error), or
    blocks forever (a [join] on a thread that never finishes). *)
Inductive outcome (A : Type) :=
| Ret (a : A)
| Panic
| Hang.
Arguments Ret {A} a.
Arguments Panic {A}.
Arguments Hang {A}.

(** ** Characters *)

Definition code (c : ascii) : Z := Z.of_nat (nat_of_ascii c).

Definition is_alpha (c : ascii) : bool :=
  ((65 <=? code c) && (code c <=? 90)) || ((97 <=? code c) && (code c <=? 122)).

Definition is_digit (c : ascii) : bool := (48 <=? code c) && (code c <=? 57).

Definition is_hex (c : ascii) : bool :=
  is_digit c || ((65 <=? code c) && (code c <=? 70))
  || ((97 <=? code c) && (code c <=? 102)).

Definition digit_value (c : ascii) : Z := code c - 48.

Definition char_in (cs : string) (c : ascii) : bool :=
  existsb (Ascii.eqb c) (list_ascii_of_string cs).

Definition newline : ascii := ascii_of_nat 10.

(** [span f s] splits [s] before its first character satisfying [f]. *)
Fixpoint span (f : ascii -> bool) (s : string) : string * string :=
  match s with
  | EmptyString => (EmptyString, EmptyString)
  | String c s' =>
      if f c then (EmptyString, s)
      else let (a, b) := span f s' in (String c a, b)
  end.

(** ** The [url] crate's [Url::parse], for non-special schemes such as
    [coap] (WHATWG URL standard, as implemented by the url crate).

    Not modelled: the removal of leading/trailing C0 controls and of inner
    tabs and newlines, the percent-encoding of the host and of the query,
    the lower-casing of the scheme, the special schemes (http, https, ws,
    wss, ftp, file), the path of a URL without an authority (which
    [parse_coap_url] rejects for want of a host), and the canonical
    re-serialisation of IPv6 addresses (an IPv6 host is kept as written,
    which is the canonical form for the addresses examined below). The path
    after an authority is parsed as the crate's [Parser::parse_path] does:
    percent-encoded with its [PATH] set, [.] and [..] segments resolved. *)

Record Url := mkUrl {
  url_host : option string;  (** [host_str()] *)
  url_port : option Z;       (** [port()]: a [u16] *)
  url_path : string          (** [path()] *)
}.

Fixpoint scheme_rest (s : string) : option (string * string) :=
  match s with
  | EmptyString => None
  | String c s' =>
      if Ascii.eqb c ":" then Some (EmptyString, s')
      else if is_alpha c || is_digit c || char_in "+-." c then
        match scheme_rest s' with
        | Some (a, b) => Some (String c a, b)
        | None => None
        end
      else None
  end.

(** The scheme, and what follows its colon; [None] is the url crate's
    [RelativeUrlWithoutBase]. *)
Definition parse_scheme (s : string) : option (string * string) :=
  match s with
  | String c s' =>
      if is_alpha c then
        match scheme_rest s' with
        | Some (a, b) => Some (String c a, b)
        | None => None
        end
      else None
  | EmptyString => None
  end.

(** [Parser::parse_port]: digits accumulated in a [u32], failing as soon as
    the value exceeds [u16::MAX]. *)
Fixpoint parse_port_acc (acc : Z) (ds : string) : option Z :=
  match ds with
  | EmptyString => Some acc
  | String c ds' =>
      if is_digit c then
        let acc' := acc * 10 + digit_value c in
        if 65535 <? acc' then None else parse_port_acc acc' ds'
      else None
  end.

Definition parse_port (ds : string) : option (option Z) :=
  match ds with
  | EmptyString => Some None
  | _ => match parse_port_acc 0 ds with
         | Some p => Some (Some p)
         | None => None
         end
  end.

(** What follows the host: nothing, or [:] and a port. *)
Definition parse_port_part (rest : string) : option (option Z) :=
  match rest with
  | EmptyString => Some None
  | String c ds => if Ascii.eqb c ":" then parse_port ds else None
  end.

(** [Host::parse_opaque]: the forbidden host code points. *)
Definition valid_opaque (h : string) : bool :=
  forallb (fun c => negb (char_in " #/:<>?@[\]^|" c || Ascii.eqb c newline
                          || (code c =? 0) || (code c =? 9) || (code c =? 13)))
          (list_ascii_of_string h).

(** A simplified IPv6 literal check: hexadecimal digits, colons and dots,
    with at least one colon. *)
Definition valid_ipv6 (a : string) : bool :=
  forallb (fun c => is_hex c || char_in ":." c) (list_ascii_of_string a)
  && char_in a ":".

(** [Parser::parse_host_and_port] for a non-special scheme: an empty host
    followed by a port is [EmptyHost]. *)
Definition parse_host_port (hp : string) : option (string * option Z) :=
  match hp with
  | String c r =>
      if Ascii.eqb c "[" then
        let (inner, after) := span (Ascii.eqb "]") r in
        match after with
        | String _ after' =>
            if valid_ipv6 inner then
              match parse_port_part after' with
              | Some p => Some ("[" ++ inner ++ "]", p)
              | None => None
              end
            else None
        | EmptyString => None
        end
      else
        let (h, rest) := span (Ascii.eqb ":") hp in
        if String.eqb h "" && negb (String.eqb rest "") then None
        else if valid_opaque h then
          match parse_port_part rest with
          | Some p => Some (h, p)
          | None => None
          end
        else None
  | EmptyString => Some (EmptyString, None)
  end.

Fixpoint has_at (s : string) : bool :=
  match s with
  | EmptyString => false
  | String c s' => Ascii.eqb c "@" || has_at s'
  end.

(** The host-and-port part after the userinfo (the text after the last [@]). *)
Fixpoint after_last_at (s : string) : string :=
  match s with
  | EmptyString => EmptyString
  | String c s' =>
      if has_at s' then after_last_at s'
      else if Ascii.eqb c "@" then s' else s
  end.

Definition is_authority_end (c : ascii) : bool := char_in "/?#" c.

Definition is_query_start (c : ascii) : bool := char_in "?#" c.

(** The [PATH] percent-encode set of the url crate: C0 controls, DEL and
    every non-ASCII byte, space, the double quote, [#], [<], [>], [?],
    the backquote, [{] and [}]. *)
Definition quote_char : ascii := ascii_of_nat 34.

Definition in_path_set (c : ascii) : bool :=
  (code c <? 32) || (126 <? code c) || char_in " #<>?`{}" c
  || Ascii.eqb c quote_char.

(** An upper-case hexadecimal digit. *)
Definition hex_digit (n : Z) : ascii :=
  if n <? 10 then ascii_of_nat (Z.to_nat (48 + n))
  else ascii_of_nat (Z.to_nat (55 + n)).

(** [utf8_percent_encode(.., PATH)] on a byte, and on a string. *)
Definition percent_encode_char (c : ascii) : string :=
  if in_path_set c
  then String "%" (String (hex_digit (code c / 16))
                          (String (hex_digit (code c mod 16)) EmptyString))
  else String c EmptyString.

Fixpoint percent_encode (s : string) : string :=
  match s with
  | EmptyString => EmptyString
  | String c s' => percent_encode_char c ++ percent_encode s'
  end.

(** The segments of a path, split at every [/]; the last one is the one
    not followed by a [/]. *)
Fixpoint split_slash (s : string) : list string :=
  match s with
  | EmptyString => [EmptyString]
  | String c s' =>
      if Ascii.eqb c "/" then EmptyString :: split_slash s'
      else match split_slash s' with
           | seg :: rest => String c seg :: rest
           | [] => [String c EmptyString]
           end
  end.

Definition lower_char (c : ascii) : ascii :=
  if (65 <=? code c) && (code c <=? 90)
  then ascii_of_nat (nat_of_ascii c + 32) else c.

Fixpoint lower (s : string) : string :=
  match s with
  | EmptyString => EmptyString
  | String c s' => String (lower_char c) (lower s')
  end.

(** The single-dot and double-dot segments ([%2e] is a dot, in either
    case). *)
Definition is_single_dot (seg : string) : bool :=
  String.eqb seg "." || String.eqb (lower seg) "%2e".

Definition is_double_dot (seg : string) : bool :=
  let l := lower seg in
  String.eqb l ".." || String.eqb l ".%2e" || String.eqb l "%2e."
  || String.eqb l "%2e%2e".

Definition dot_segment (seg : string) : bool :=
  is_single_dot seg || is_double_dot seg.

(** The path-state loop on the (encoded) segments: [..] removes the last
    segment kept (and adds an empty one when it ends the path), [.] is
    dropped (an empty segment when it ends the path), any other segment is
    kept. *)
Fixpoint path_push (acc segs : list string) : list string :=
  match segs with
  | [] => acc
  | seg :: rest =>
      let last := match rest with [] => true | _ => false end in
      let acc' :=
        if is_double_dot seg then
          (removelast acc ++ (if last then [EmptyString] else []))%list
        else if is_single_dot seg then
          (acc ++ (if last then [EmptyString] else []))%list
        else (acc ++ [seg])%list in
      path_push acc' rest
  end.

Fixpoint serialize_path (segs : list string) : string :=
  match segs with
  | [] => EmptyString
  | seg :: rest => "/" ++ seg ++ serialize_path rest
  end.

(** [Parser::parse_path_start] and [parse_path] after an authority: the
    path is empty, or begins with the [/] that ended the authority. *)
Definition parse_path (p : string) : string :=
  match p with
  | EmptyString => EmptyString
  | String c r =>
      let segs := if Ascii.eqb c "/" then split_slash r else split_slash p in
      serialize_path (path_push [] (map percent_encode segs))
  end.

Definition url_parse (s : string) : option Url :=
  match parse_scheme s with
  | None => None
  | Some (_, rest) =>
      match rest with
      | String c1 (String c2 after) =>
          if Ascii.eqb c1 "/" && Ascii.eqb c2 "/" then
            let (auth, tail) := span is_authority_end after in
            match parse_host_port (after_last_at auth) with
            | Some (host, port) =>
                Some (mkUrl (Some host) port (parse_path (fst (span is_query_start tail))))
            | None => None
            end
          else Some (mkUrl None None (fst (span is_query_start rest)))
      | _ => Some (mkUrl None None (fst (span is_query_start rest)))
      end
  end.

(** ** [parse_coap_url] (dtls_client.rs, lines 240-264) *)

(** The body of a match of [^\[(.*?)]$] on the text after the opening
    bracket: everything up to the final []], none of it a newline. *)
Fixpoint bracket_body (r : string) : option string :=
  match r with
  | EmptyString => None
  | String c EmptyString => if Ascii.eqb c "]" then Some EmptyString else None
  | String c r' =>
      if Ascii.eqb c newline then None
      else match bracket_body r' with
           | Some x => Some (String c x)
           | None => None
           end
  end.

(** [Regex::new(r"^\[(.*?)]$").replace(&host, "$1")]. *)
Definition strip_brackets (s : string) : string :=
  match s with
  | String c r =>
      if Ascii.eqb c "[" then
        match bracket_body r with
        | Some x => x
        | None => s
        end
      else s
  | EmptyString => s
  end.

Definition DEFAULT_PORT : Z := 5683.

Definition parse_coap_url (url : string) : result (string * Z * string) :=
  match url_parse url with
  | None => Err InvalidInput
  | Some url_params =>
      match url_host url_params with
      | None => Err InvalidInput
      | Some h =>
          if String.eqb h "" then Err InvalidInput
          else
            let host := strip_brackets h in
            let port := match url_port url_params with
                        | Some p => p
                        | None => DEFAULT_PORT
                        end in
            Ok (host, port, url_path url_params)
      end
  end.

(** ** [gen_message_id] (dtls_client.rs, lines 266-269)

    [*message_id += 1] on a [u16]: with overflow checks (the default of
    the dev and test profiles) the increment past [u16::MAX] panics, without
    them it wraps around. The result is the new counter and the value
    returned, [None] the panic. *)
Definition gen_message_id (overflow_checks : bool) (message_id : Z)
  : option (Z * Z) :=
  let n := message_id + 1 in
  if 65535 <? n then
    if overflow_checks then None else Some (n mod 65536, n mod 65536)
  else Some (n, n).

(** ** Packets *)

Inductive MessageType :=
| Confirmable
| NonConfirmable
| Acknowledgement
| Reset.

Inductive ObserveOption := Register | Deregister.

(** [ObserveOption::Register as u8] and [ObserveOption::Deregister as u8]. *)
Definition observe_option_byte (o : ObserveOption) : Z :=
  match o with Register => 0 | Deregister => 1 end.

Inductive CoAPOption :=
| UriPath (path : string)
| Observe (value : list Z).

Record Header := mkHeader {
  h_type : MessageType;
  h_message_id : Z;
  h_code : Z
}.

Record Packet := mkPacket {
  header : Header;
  token : list Z;
  options : list CoAPOption;
  payload : list Z
}.

(** Modelled from the spec: [Packet::new] of the message module (absent
    from src/): a packet with no token, no options and no payload. *)
Definition Packet_new : Packet :=
  mkPacket (mkHeader Confirmable 0 0) [] [] [].

Definition set_type (t : MessageType) (p : Packet) : Packet :=
  mkPacket (mkHeader t (h_message_id (header p)) (h_code (header p)))
           (token p) (options p) (payload p).

Definition set_message_id (mid : Z) (p : Packet) : Packet :=
  mkPacket (mkHeader (h_type (header p)) mid (h_code (header p)))
           (token p) (options p) (payload p).

Definition set_token (t : list Z) (p : Packet) : Packet :=
  mkPacket (header p) t (options p) (payload p).

Definition is_observe (o : CoAPOption) : bool :=
  match o with Observe _ => true | _ => false end.

Definition is_uri_path (o : CoAPOption) : bool :=
  match o with UriPath _ => true | _ => false end.

(** Modelled from the spec: the request envelope's setters for the observe
    marker and the path (message module, absent from src/). *)
Definition set_observe (v : list Z) (p : Packet) : Packet :=
  mkPacket (header p) (token p)
           (filter (fun o => negb (is_observe o)) (options p) ++ [Observe v])
           (payload p).

Definition set_path (path : string) (p : Packet) : Packet :=
  mkPacket (header p) (token p)
           (filter (fun o => negb (is_uri_path o)) (options p) ++ [UriPath path])
           (payload p).

(** The response classification. *)
Inductive Status := Content | ClientError | ServerError | OtherStatus.

(** Modelled from the spec: [CoAPResponse::get_status] (message module,
    absent from src/), the status derived from the code (2.05 is Content). *)
Definition get_status (p : Packet) : Status :=
  let c := h_code (header p) in
  if c =? 69 then Content
  else if Z.shiftr c 5 =? 4 then ClientError
  else if Z.shiftr c 5 =? 5 then ServerError
  else OtherStatus.

Definition Status_eqb (a b : Status) : bool :=
  match a, b with
  | Content, Content | ClientError, ClientError
  | ServerError, ServerError | OtherStatus, OtherStatus => true
  | _, _ => false
  end.

Record CoAPResponse := mkResponse { response_message : Packet }.

Definition requires_ack (t : MessageType) : bool :=
  match t with Confirmable => true | _ => false end.

(** Modelled from the spec: [CoAPResponse::new] (message module, absent
    from src/). A response envelope is derivable when the packet's type
    requires acknowledgement; it carries the message type, message-id and
    token of the incoming message (spec 4.5 and property 4). *)
Definition CoAPResponse_new (request : Packet) : option CoAPResponse :=
  if requires_ack (h_type (header request)) then
    Some (mkResponse (mkPacket
      (mkHeader (h_type (header request)) (h_message_id (header request)) 69)
      (token request) [] []))
  else None.

Definition SocketAddr := (string * Z)%type.

Record CoAPRequest := mkRequest {
  request_message : Packet;
  request_response : option CoAPResponse;
  request_source : option SocketAddr
}.

(** Modelled from the spec: [CoAPRequest::new], a GET request (code 0.01). *)
Definition CoAPRequest_new : CoAPRequest :=
  mkRequest (mkPacket (mkHeader Confirmable 0 1) [] [] []) None None.

Definition CoAPRequest_from_packet (p : Packet) (peer : SocketAddr) : CoAPRequest :=
  mkRequest p (CoAPResponse_new p) (Some peer).

Definition map_message (f : Packet -> Packet) (r : CoAPRequest) : CoAPRequest :=
  mkRequest (f (request_message r)) (request_response r) (request_source r).

(** ** The DTLS channel: what one write or one read does *)

(** One [send_with_socket]: [to_bytes] fails ([EncodeFailed]), or
    [ssl_write] returns an error ([WriteFailed]), writes fewer bytes
    ([SentShort]) or all of them ([SentAll]). *)
Inductive SendEvent := SentAll | SentShort | WriteFailed | EncodeFailed.

(** One [ssl_read]: a datagram that [Packet::from_bytes] decodes to [p], one
    that does not decode, or an [ssl::Error], with the socket's io error
    kind when there is one (an elapsed read timeout is [WouldBlock] on
    POSIX systems and [TimedOut] on Windows). *)
Inductive RecvEvent :=
| RecvPacket (p : Packet)
| RecvGarbage
| RecvSslError (io : option ErrorKind).

(** [send_with_socket] (lines 208-224): [ssl_write(..).unwrap()]. *)
Definition send_with_socket (ev : SendEvent) : outcome (result unit) :=
  match ev with
  | EncodeFailed => Ret (Err InvalidInput)
  | WriteFailed => Panic
  | SentShort => Ret (Err Other)
  | SentAll => Ret (Ok tt)
  end.

(** Whether the datagram reached the wire. *)
Definition written (ev : SendEvent) : bool :=
  match ev with SentAll | SentShort => true | _ => false end.

(** [receive_from_socket] (lines 226-238). *)
Definition receive_from_socket (ev : RecvEvent) : result Packet :=
  match ev with
  | RecvPacket p => Ok p
  | RecvGarbage => Err InvalidInput
  | RecvSslError _ => Err InvalidInput
  end.

(** ** Sessions, observe workers and the world they live in *)

(** [DTLSCoAPClient]: the DTLS stream is the environment's; the two observe
    handles name a worker: the [mpsc::Sender] whose receiver the worker
    owns, and its [JoinHandle]. [read_timeout] is the socket's. *)
Record DTLSCoAPClient := mkClient {
  peer_addr : SocketAddr;
  observe_sender : option nat;
  observe_thread : option nat;
  read_timeout : option Z
}.

Inductive WorkerState := Running | Exited | Panicked.

Definition WorkerState_eqb (a b : WorkerState) : bool :=
  match a, b with
  | Running, Running | Exited, Exited | Panicked, Panicked => true
  | _, _ => false
  end.

(** An observe worker thread: its captured path and message-id counter,
    whether its thread is running, and whether the [Sender] of its channel
    is still alive (once it is dropped, [try_recv] only reports
    [Disconnected], which the loop treats like [Empty]). *)
Record Worker := mkWorker {
  w_id : nat;
  w_path : string;
  w_message_id : Z;
  w_state : WorkerState;
  w_sender_alive : bool
}.

Record World := mkWorld {
  session : DTLSCoAPClient;
  workers : list Worker;
  next_worker : nat;
  wire : list Packet;      (** datagrams written, oldest first *)
  handled : list Packet    (** packets given to observe handlers *)
}.

Definition set_session (s : DTLSCoAPClient) (w : World) : World :=
  mkWorld s (workers w) (next_worker w) (wire w) (handled w).

Definition log_wire (ps : list Packet) (w : World) : World :=
  mkWorld (session w) (workers w) (next_worker w) (wire w ++ ps) (handled w).

Definition log_handled (p : Packet) (w : World) : World :=
  mkWorld (session w) (workers w) (next_worker w) (wire w) (handled w ++ [p]).

Definition set_workers (ws : list Worker) (w : World) : World :=
  mkWorld (session w) ws (next_worker w) (wire w) (handled w).

Definition find_worker (id : nat) (ws : list Worker) : option Worker :=
  find (fun wk => Nat.eqb (w_id wk) id) ws.

Definition update_worker (id : nat) (f : Worker -> Worker) (ws : list Worker)
  : list Worker :=
  map (fun wk => if Nat.eqb (w_id wk) id then f wk else wk) ws.

Definition drop_sender (wk : Worker) : Worker :=
  mkWorker (w_id wk) (w_path wk) (w_message_id wk) (w_state wk) false.

Definition set_state (st : WorkerState) (wk : Worker) : Worker :=
  mkWorker (w_id wk) (w_path wk) (w_message_id wk) st (w_sender_alive wk).

Definition running_workers (w : World) : nat :=
  length (filter (fun wk => WorkerState_eqb (w_state wk) Running) (workers w)).

Definition DEFAULT_RECEIVE_TIMEOUT : Z := 1.

(** A freshly connected session (lines 54-59). *)
Definition fresh_world (peer : SocketAddr) : World :=
  mkWorld (mkClient peer None None (Some DEFAULT_RECEIVE_TIMEOUT)) [] 0 [] [].

(** [set_receive_timeout]: the environment says whether
    [set_read_timeout] fails. *)
Definition set_receive_timeout (res : option ErrorKind) (dur : option Z)
  (w : World) : result World :=
  match res with
  | Some e => Err e
  | None =>
      let s := session w in
      Ok (set_session (mkClient (peer_addr s) (observe_sender s)
                                (observe_thread s) dur) w)
  end.

(** ** [observe] (lines 96-178) *)

(** What the environment does during one [observe] call. *)
Record ObserveEnv := mkObserveEnv {
  oe_register_send : SendEvent;
  oe_set_timeout : option ErrorKind;
  oe_register_recv : RecvEvent;
  oe_clone_ok : bool;              (** [try_clone] *)
  oe_connector : option ErrorKind; (** [get_ssl_connector] *)
  oe_handshake_ok : bool           (** [connector.connect(..)] *)
}.

(** Lines 103-106: the registration request. *)
Definition register_request (mid : Z) (resource_path : string) : CoAPRequest :=
  map_message (set_path resource_path)
    (map_message (set_message_id mid)
       (map_message (set_observe [observe_option_byte Register]) CoAPRequest_new)).

(** Lines 162-165: the deregistration request. *)
Definition deregister_request (mid : Z) (observe_path : string) : CoAPRequest :=
  map_message (set_path observe_path)
    (map_message (set_observe [observe_option_byte Deregister])
       (map_message (set_message_id mid) CoAPRequest_new)).

(** Lines 118-177 once the registration succeeded: the channel for the new
    worker is created, the previous [Sender] (if any) is dropped by the
    assignment of line 174, the previous [JoinHandle] by that of line 175
    (which detaches its thread). *)
Definition spawn_worker (message_id : Z) (resource_path : string) (w : World)
  : World :=
  let s := session w in
  let id := next_worker w in
  let ws := match observe_sender s with
            | Some c => update_worker c drop_sender (workers w)
            | None => workers w
            end in
  mkWorld (mkClient (peer_addr s) (Some id) (Some id) (read_timeout s))
          (ws ++ [mkWorker id resource_path message_id Running true])
          (S id) (wire w) (handled w).

Definition observe (overflow_checks : bool) (env : ObserveEnv)
  (resource_path : string) (w : World) : outcome (result unit * World) :=
  match gen_message_id overflow_checks 0 with
  | None => Panic
  | Some (message_id, mid) =>
      let register_packet := register_request mid resource_path in
      let w1 := if written (oe_register_send env)
                then log_wire [request_message register_packet] w else w in
      match send_with_socket (oe_register_send env) with
      | Panic => Panic
      | Hang => Hang
      | Ret (Err e) => Ret (Err e, w1)
      | Ret (Ok _) =>
          match set_receive_timeout (oe_set_timeout env)
                  (Some DEFAULT_RECEIVE_TIMEOUT) w1 with
          | Err e => Ret (Err e, w1)
          | Ok w2 =>
              match receive_from_socket (oe_register_recv env) with
              | Err e => Ret (Err e, w2)
              | Ok response =>
                  if negb (Status_eqb (get_status response) Content)
                  then Ret (Err NotFound, w2)
                  else
                    let w3 := log_handled response w2 in
                    if negb (oe_clone_ok env) then Ret (Err Other, w3)
                    else match oe_connector env with
                         | Some e => Ret (Err e, w3)
                         | None =>
                             if oe_handshake_ok env
                             then Ret (Ok tt, spawn_worker message_id resource_path w3)
                             else Panic
                         end
              end
          end
      end
  end.

(** ** The observe worker's loop body (lines 131-172) *)

(** Lines 139-144: the acknowledgement built from the response envelope. *)
Definition ack_packet (response : CoAPResponse) : Packet :=
  let m := response_message response in
  set_token (token m)
    (set_message_id (h_message_id (header m))
       (set_type (h_type (header m)) Packet_new)).

(** Lines 133-151: a packet was read; the handler gets it, and when a
    response envelope is derivable the acknowledgement is sent (its failure
    is only logged). The result is the packets handled and the datagrams
    written. *)
Definition worker_on_packet (peer : SocketAddr) (packet : Packet)
  (ack_ev : SendEvent) : outcome (list Packet * list Packet) :=
  let receive_packet := CoAPRequest_from_packet packet peer in
  match request_response receive_packet with
  | Some response =>
      let p := ack_packet response in
      match send_with_socket ack_ev with
      | Ret _ => Ret ([request_message receive_packet],
                      if written ack_ev then [p] else [])
      | Panic => Panic
      | Hang => Hang
      end
  | None => Ret ([request_message receive_packet], [])
  end.

(** Lines 161-169: [Terminate] was received. Every step is [unwrap]ped; the
    result is how the thread ends and the datagrams it wrote. *)
Definition worker_on_terminate (overflow_checks : bool) (message_id : Z)
  (observe_path : string) (dereg_ev : SendEvent) (drain : RecvEvent)
  : WorkerState * list Packet :=
  match gen_message_id overflow_checks message_id with
  | None => (Panicked, [])
  | Some (_, mid) =>
      let deregister_packet := deregister_request mid observe_path in
      let sent := if written dereg_ev
                  then [request_message deregister_packet] else [] in
      match send_with_socket dereg_ev with
      | Ret (Ok _) =>
          match receive_from_socket drain with
          | Ok _ => (Exited, sent)
          | Err _ => (Panicked, sent)
          end
      | _ => (Panicked, sent)
      end
  end.

(** ** [unobserve] (lines 181-190) and [drop] (lines 272-276) *)

(** [sender.send(Terminate).unwrap()] panics when the receiver is gone (the
    worker's thread has ended); the worker then runs its [Terminate] branch
    with the network events [dereg_ev] and [drain];
    [join().unwrap()] panics when the joined thread panicked, and blocks
    while it runs. *)
Definition unobserve (overflow_checks : bool) (dereg_ev : SendEvent)
  (drain : RecvEvent) (w : World) : outcome World :=
  let s := session w in
  match observe_sender s with
  | None => Ret w
  | Some c =>
      let w1 := set_session (mkClient (peer_addr s) None (observe_thread s)
                                      (read_timeout s)) w in
      match find_worker c (workers w1) with
      | None => Panic
      | Some wk =>
          if negb (WorkerState_eqb (w_state wk) Running) then Panic
          else
            let (st, sent) := worker_on_terminate overflow_checks
                                (w_message_id wk) (w_path wk) dereg_ev drain in
            let w2 := log_wire sent
                        (set_workers (update_worker c (set_state st) (workers w1)) w1) in
            match observe_thread s with
            | None => Ret w2
            | Some h =>
                let w3 := set_session (mkClient (peer_addr s) None None
                                                (read_timeout s)) w2 in
                match find_worker h (workers w3) with
                | Some wh =>
                    match w_state wh with
                    | Running => Hang
                    | Exited => Ret w3
                    | Panicked => Panic
                    end
                | None => Hang
                end
            end
      end
  end.

Definition drop (overflow_checks : bool) (dereg_ev : SendEvent)
  (drain : RecvEvent) (w : World) : outcome World :=
  unobserve overflow_checks dereg_ev drain w.

(** ** [get_with_timeout] (lines 79-93) *)

(** [DTLSCoAPClient::new]: the peer resolves and the socket connects; an
    error is returned; or the DTLS handshake fails, which line 52
    [unwrap]s. *)
Inductive ConnectEvent :=
| Connected
| ConnectError (e : ErrorKind)
| HandshakeFailed.

Record GetEnv := mkGetEnv {
  ge_connect : ConnectEvent;
  ge_send : SendEvent;
  ge_set_timeout : option ErrorKind;
  ge_recv : RecvEvent
}.

Definition get_with_timeout (env : GetEnv) (url : string) (timeout : Z)
  : outcome (result CoAPResponse) :=
  match parse_coap_url url with
  | Err e => Ret (Err e)
  | Ok (domain, port, path) =>
      let packet := map_message (set_path path) CoAPRequest_new in
      match ge_connect env with
      | HandshakeFailed => Panic
      | ConnectError e => Ret (Err e)
      | Connected =>
          match send_with_socket (ge_send env) with
          | Panic => Panic
          | Hang => Hang
          | Ret (Err e) => Ret (Err e)
          | Ret (Ok _) =>
              match ge_set_timeout env with
              | Some e => Ret (Err e)
              | None =>
                  match receive_from_socket (ge_recv env) with
                  | Ok receive_packet => Ret (Ok (mkResponse receive_packet))
                  | Err e => Ret (Err e)
                  end
              end
          end
      end
  end.

Inductive Platform := Posix | Windows.

(** The io error kind of an elapsed read timeout. *)
Definition timeout_kind (pf : Platform) : ErrorKind :=
  match pf with Posix => WouldBlock | Windows => TimedOut end.

(** A server that completes the handshake and takes the request but never
    answers: the read timer elapses. *)
Definition silent_server (pf : Platform) : GetEnv :=
  mkGetEnv Connected SentAll None (RecvSslError (Some (timeout_kind pf))).

(** ** Reachable worlds *)

Inductive reachable (overflow_checks : bool) : World -> Prop :=
| reach_new : forall peer, reachable overflow_checks (fresh_world peer)
| reach_observe : forall w env path r w',
    reachable overflow_checks w ->
    observe overflow_checks env path w = Ret (r, w') ->
    reachable overflow_checks w'
| reach_unobserve : forall w ev drain w',
    reachable overflow_checks w ->
    unobserve overflow_checks ev drain w = Ret w' ->
    reachable overflow_checks w'.

(** An environment in which every step of a registration succeeds. *)
Definition content_packet : Packet :=
  mkPacket (mkHeader Acknowledgement 1 69) [] [] [49].

Definition good_observe_env : ObserveEnv :=
  mkObserveEnv SentAll None (RecvPacket content_packet) true None true.

Definition localhost_peer : SocketAddr := ("127.0.0.1", 5683).

(** Characters of a plain host name or IPv4 literal, and the value of a
    string of decimal digits. *)
Definition simple_host_char (c : ascii) : bool :=
  is_alpha c || is_digit c || char_in ".-" c.

Fixpoint digits_value_acc (acc : Z) (ds : string) : Z :=
  match ds with
  | EmptyString => acc
  | String c ds' => digits_value_acc (acc * 10 + digit_value c) ds'
  end.

Definition digits_value (ds : string) : Z := digits_value_acc 0 ds.

(** ** One pass of the observe worker's loop (lines 131-172) *)

(** [observe_receiver.try_recv()]. *)
Inductive TryRecv := RecvTerminate | RecvEmpty | RecvDisconnected.

(** A read (a decoded packet is handled and acknowledged; an error, a
    timeout included, is only logged), then the non-blocking poll; the
    result is the packets handled, the datagrams written and whether the
    loop breaks. A panic of the worker thread is [Panic]. *)
Definition worker_iteration (overflow_checks : bool) (peer : SocketAddr)
  (message_id : Z) (observe_path : string) (read : RecvEvent)
  (ack_ev : SendEvent) (poll : TryRecv) (dereg_ev : SendEvent)
  (drain : RecvEvent) : outcome (list Packet * list Packet * bool) :=
  let first := match receive_from_socket read with
               | Ok packet => worker_on_packet peer packet ack_ev
               | Err _ => Ret ([], [])
               end in
  match first with
  | Panic => Panic
  | Hang => Hang
  | Ret (hs, ws) =>
      match poll with
      | RecvTerminate =>
          let (st, sent) := worker_on_terminate overflow_checks message_id
                              observe_path dereg_ev drain in
          match st with
          | Panicked => Panic
          | _ => Ret (hs, (ws ++ sent)%list, true)
          end
      | _ => Ret (hs, ws, false)
      end
  end.

(** ** The PSK client callback of [get_ssl_connector] (ssl_utils.rs) *)

(** [impl Write for &mut [u8]]: [write] copies as much as fits and advances
    the slice; [write_all] repeats it and fails with [WriteZero] once a
    write copies nothing. [filled] is what was written so far, [rest] the
    slice left; [fuel] bounds the loop (one more pass than bytes). *)
Fixpoint write_all_fuel (fuel : nat) (data filled rest : list Z)
  : option (list Z * list Z) :=
  match fuel with
  | O => None
  | S f =>
      match data with
      | [] => Some (filled, rest)
      | _ :: _ =>
          let amt := Nat.min (length data) (length rest) in
          if Nat.eqb amt 0 then None
          else write_all_fuel f (skipn amt data) (filled ++ firstn amt data)%list
                              (skipn amt rest)
      end
  end.

(** The buffer after [buf.write_all(data)], [None] for its error. *)
Definition write_all (data buf : list Z) : option (list Z) :=
  match write_all_fuel (S (length data)) data [] buf with
  | Some (filled, rest) => Some (filled ++ rest)%list
  | None => None
  end.

(** The closure given to [set_psk_client_callback] (lines 22-26):
    [COAP_ID] and [COAP_KEY] are read through lazy statics that [expect]
    the variables ([None] when unset); both [write_all]s are [unwrap]ped.
    The result is the returned length and the two buffers after the call. *)
Definition psk_client_callback (coap_id coap_key : option (list Z))
  (identity_buffer psk_buffer : list Z) : outcome (Z * list Z * list Z) :=
  match coap_id with
  | None => Panic
  | Some id =>
      match write_all id identity_buffer with
      | None => Panic
      | Some identity_buffer' =>
          match coap_key with
          | None => Panic
          | Some key =>
              match write_all key psk_buffer with
              | None => Panic
              | Some psk_buffer' =>
                  Ret (Z.of_nat (length key), identity_buffer', psk_buffer')
              end
          end
      end
  end.

(** The world after one successful registration on [/temp], and after the
    following [unobserve], when every step succeeds. *)
Definition observed_world : World :=
  match observe true good_observe_env "/temp" (fresh_world localhost_peer) with
  | Ret (_, w) => w
  | _ => fresh_world localhost_peer
  end.

(** The world after a second successful registration on [/temp]. *)
Definition twice_observed_world : World :=
  match observe true good_observe_env "/temp" observed_world with
  | Ret (_, w) => w
  | _ => observed_world
  end.

Definition unobserved_world : World :=
  match unobserve true SentAll (RecvPacket content_packet) observed_world with
  | Ret w => w
  | _ => observed_world
  end.

(** ** Theorems *)

Example parse_ipv6_ex :
  parse_coap_url "coap://[::1]:5683/temp" = Ok ("::1", 5683, "/temp").
Proof. reflexivity. Qed.

Example parse_bad_ex :
  parse_coap_url "coap://:5683" = Err InvalidInput.
Proof. reflexivity. Qed.

Example observe_once_ex :
  match observe true good_observe_env "/temp" (fresh_world localhost_peer) with
  | Ret (Ok _, w) => observe_sender (session w) = Some 0%nat /\ running_workers w = 1%nat
  | _ => False
  end.
Proof. vm_compute. split; reflexivity. Qed.

(** *** URL parsing *)

Lemma append_empty_r (s : string) : s ++ EmptyString = s.
Proof. induction s as [|c s IH]; simpl; [reflexivity | rewrite IH; reflexivity]. Qed.

Lemma list_ascii_of_string_app (a b : string) :
  list_ascii_of_string (a ++ b) = app (list_ascii_of_string a) (list_ascii_of_string b).
Proof. induction a as [|c a IH]; simpl; [reflexivity | rewrite IH; reflexivity]. Qed.

Lemma span_app_skip (f : ascii -> bool) (a t : string) :
  forallb (fun c => negb (f c)) (list_ascii_of_string a) = true ->
  span f (a ++ t) = (a ++ fst (span f t), snd (span f t)).
Proof.
  induction a as [|c a IH]; simpl; intro H.
  - destruct (span f t); reflexivity.
  - apply andb_prop in H as [Hc Ha].
    destruct (f c); [discriminate|].
    rewrite (IH Ha). destruct (span f t); reflexivity.
Qed.

Lemma span_all (f : ascii -> bool) (a : string) :
  forallb (fun c => negb (f c)) (list_ascii_of_string a) = true ->
  span f a = (a, EmptyString).
Proof.
  intro H. rewrite <- (append_empty_r a) at 1.
  rewrite (span_app_skip f a EmptyString H). simpl.
  rewrite append_empty_r. reflexivity.
Qed.

Lemma after_last_at_no_at (s : string) :
  has_at s = false -> after_last_at s = s.
Proof.
  destruct s as [|c s']; simpl; [reflexivity|].
  intro H. apply orb_false_iff in H as [Hc Hs]. rewrite Hs, Hc. reflexivity.
Qed.

Lemma forallb_has_at (s : string) :
  forallb (fun c => negb (Ascii.eqb c "@")) (list_ascii_of_string s) = true ->
  has_at s = false.
Proof.
  induction s as [|c s IH]; simpl; [reflexivity|].
  intro H. apply andb_prop in H as [Hc Hs].
  rewrite (IH Hs). destruct (Ascii.eqb c "@"); [discriminate|reflexivity].
Qed.

Lemma simple_host_char_facts (c : ascii) :
  simple_host_char c = true ->
  char_in "/?#" c = false /\ Ascii.eqb ":" c = false /\ Ascii.eqb c ":" = false
  /\ Ascii.eqb c "@" = false /\ Ascii.eqb c "[" = false
  /\ negb (char_in " #/:<>?@[\]^|" c || Ascii.eqb c newline
            || (code c =? 0) || (code c =? 9) || (code c =? 13)) = true.
Proof.
  destruct c as [b0 b1 b2 b3 b4 b5 b6 b7].
  destruct b0, b1, b2, b3, b4, b5, b6, b7; vm_compute;
    first [discriminate | intros _; repeat split].
Qed.

Lemma forallb_weaken (f g : ascii -> bool) (l : list ascii) :
  (forall c, f c = true -> g c = true) -> forallb f l = true -> forallb g l = true.
Proof.
  intros Hfg. induction l as [|c l IH]; simpl; [reflexivity|].
  intro H. apply andb_prop in H as [Hc Hl]. rewrite (Hfg c Hc), (IH Hl). reflexivity.
Qed.

Lemma digit_simple (c : ascii) : is_digit c = true -> simple_host_char c = true.
Proof. unfold simple_host_char. intro H. rewrite H, orb_true_r. reflexivity. Qed.

Lemma parse_port_acc_overflow (ds : string) (acc : Z) :
  acc <= 65535 ->
  forallb is_digit (list_ascii_of_string ds) = true ->
  65535 < digits_value_acc acc ds ->
  parse_port_acc acc ds = None.
Proof.
  revert acc. induction ds as [|c ds IH]; simpl; intros acc Hacc Hd Hv.
  - lia.
  - apply andb_prop in Hd as [Hc Hds]. rewrite Hc.
    destruct (65535 <? acc * 10 + digit_value c) eqn:E; [reflexivity|].
    apply Z.ltb_ge in E. apply IH; assumption.
Qed.

Lemma append_assoc_str (a b c : string) : (a ++ b) ++ c = a ++ (b ++ c).
Proof. induction a as [|x a IH]; simpl; [reflexivity | rewrite IH; reflexivity]. Qed.

Lemma span_stop (f : ascii -> bool) (t : string) :
  (t = EmptyString \/ exists c r, t = String c r /\ f c = true) ->
  span f t = (EmptyString, t).
Proof.
  intros [-> | (c & r & -> & Hc)]; simpl; [reflexivity | rewrite Hc; reflexivity].
Qed.

Lemma authority_char_facts (c : ascii) :
  (simple_host_char c || Ascii.eqb c ":") = true ->
  is_authority_end c = false /\ Ascii.eqb c "@" = false.
Proof.
  destruct c as [b0 b1 b2 b3 b4 b5 b6 b7].
  destruct b0, b1, b2, b3, b4, b5, b6, b7; vm_compute;
    first [discriminate | intros _; split; reflexivity].
Qed.

Lemma url_parse_coap (after : string) :
  url_parse ("coap://" ++ after) =
  let (auth, tail) := span is_authority_end after in
  match parse_host_port (after_last_at auth) with
  | Some (host, port) =>
      Some (mkUrl (Some host) port (parse_path (fst (span is_query_start tail))))
  | None => None
  end.
Proof. reflexivity. Qed.

Lemma parse_port_colon_overflow (ds : string) :
  forallb is_digit (list_ascii_of_string ds) = true ->
  65535 < digits_value ds ->
  parse_port_part (String ":" ds) = None.
Proof.
  intros Hd Hv. unfold parse_port_part.
  replace (Ascii.eqb ":" ":") with true by reflexivity.
  destruct ds as [|d ds']; [unfold digits_value in Hv; simpl in Hv; lia|].
  unfold parse_port.
  rewrite (parse_port_acc_overflow (String d ds') 0); [reflexivity | lia | exact Hd | exact Hv].
Qed.

(** The host forms of an authority: a host with no [:] that does not begin
    with [[], or a bracketed literal. *)
Lemma parse_host_port_overflow (h ds : string) :
  ((forallb (fun c => negb (Ascii.eqb c ":")) (list_ascii_of_string h) = true
    /\ (h = EmptyString \/ exists c r, h = String c r /\ Ascii.eqb c "[" = false))
   \/ exists a, h = "[" ++ a ++ "]"
       /\ forallb (fun c => negb (Ascii.eqb c "]")) (list_ascii_of_string a) = true) ->
  forallb is_digit (list_ascii_of_string ds) = true ->
  65535 < digits_value ds ->
  parse_host_port (h ++ ":" ++ ds) = None.
Proof.
  intros Hh Hd Hv.
  pose proof (parse_port_colon_overflow ds Hd Hv) as Hp.
  destruct Hh as [[Hcol [-> | (c & r & -> & Hc)]] | (a & -> & Ha)].
  - reflexivity.
  - unfold parse_host_port. cbn [append]. rewrite Hc.
    replace (String c (r ++ String ":" ds)) with (String c r ++ String ":" ds) by reflexivity.
    rewrite span_app_skip.
    2:{ eapply forallb_weaken; [|exact Hcol]. intros x Hx. rewrite Ascii.eqb_sym. exact Hx. }
    cbn [span fst snd]. replace (Ascii.eqb ":" ":") with true by reflexivity.
    rewrite append_empty_r.
    replace (String.eqb (String c r) "") with false by reflexivity. cbn [andb].
    cbn [snd]. rewrite Hp. destruct (valid_opaque (String c r)); reflexivity.
  - unfold parse_host_port. cbn [append].
    replace (Ascii.eqb "[" "[") with true by reflexivity.
    replace ((a ++ "]") ++ String ":" ds) with (a ++ String "]" (String ":" ds))
      by (rewrite append_assoc_str; reflexivity).
    rewrite span_app_skip.
    2:{ eapply forallb_weaken; [|exact Ha]. intros x Hx. rewrite Ascii.eqb_sym. exact Hx. }
    cbn [span fst snd]. replace (Ascii.eqb "]" "]") with true by reflexivity.
    rewrite append_empty_r.
    cbn [snd]. rewrite Hp. destruct (valid_ipv6 a); reflexivity.
Qed.

Lemma after_last_at_userinfo (u x : string) :
  has_at x = false -> after_last_at (u ++ String "@" x) = x.
Proof.
  intro Hx. induction u as [|c u IH].
  - simpl. rewrite Hx. reflexivity.
  - assert (Ha : has_at (u ++ String "@" x) = true).
    { clear IH. induction u as [|c' u IH']; simpl; [reflexivity|].
      rewrite IH'. apply orb_true_r. }
    simpl. rewrite Ha. exact IH.
Qed.

(** [Url::parse] fails on [coap://[userinfo@]host:port[rest]] whenever the
    port is beyond 16 bits, for each host form and whatever path, query or
    fragment [rest] follows. *)
Lemma url_parse_port_overflow (u h ds tail : string) :
  (u = EmptyString
   \/ exists u', u = u' ++ "@"
       /\ forallb (fun c => negb (is_authority_end c)) (list_ascii_of_string u') = true) ->
  forallb (fun c => negb (is_authority_end c || Ascii.eqb c "@")) (list_ascii_of_string h) = true ->
  ((forallb (fun c => negb (Ascii.eqb c ":")) (list_ascii_of_string h) = true
    /\ (h = EmptyString \/ exists c r, h = String c r /\ Ascii.eqb c "[" = false))
   \/ exists a, h = "[" ++ a ++ "]"
       /\ forallb (fun c => negb (Ascii.eqb c "]")) (list_ascii_of_string a) = true) ->
  forallb is_digit (list_ascii_of_string ds) = true ->
  65535 < digits_value ds ->
  (tail = EmptyString \/ exists c t, tail = String c t /\ is_authority_end c = true) ->
  url_parse ("coap://" ++ u ++ h ++ ":" ++ ds ++ tail) = None.
Proof.
  intros Hu Hh Hform Hd Hv Htail.
  assert (Hds : forallb (fun c => negb (is_authority_end c || Ascii.eqb c "@"))
                  (list_ascii_of_string (":" ++ ds)) = true).
  { simpl. eapply forallb_weaken; [|exact Hd].
    intros c Hc. destruct (authority_char_facts c) as [-> ->]; [|reflexivity].
    rewrite (digit_simple c Hc). reflexivity. }
  assert (Hx : forallb (fun c => negb (is_authority_end c || Ascii.eqb c "@"))
                 (list_ascii_of_string (h ++ ":" ++ ds)) = true).
  { rewrite list_ascii_of_string_app, forallb_app, Hh, Hds. reflexivity. }
  assert (Hxa : forallb (fun c => negb (is_authority_end c))
                  (list_ascii_of_string (h ++ ":" ++ ds)) = true).
  { eapply forallb_weaken; [|exact Hx]. intros c Hc.
    apply negb_true_iff, orb_false_iff in Hc as [Hc _]. rewrite Hc. reflexivity. }
  assert (Hat : has_at (h ++ ":" ++ ds) = false).
  { apply forallb_has_at. eapply forallb_weaken; [|exact Hx]. intros c Hc.
    apply negb_true_iff, orb_false_iff in Hc as [_ Hc]. rewrite Hc. reflexivity. }
  assert (Hauth : forallb (fun c => negb (is_authority_end c))
                    (list_ascii_of_string (u ++ h ++ ":" ++ ds)) = true).
  { rewrite list_ascii_of_string_app, forallb_app, Hxa, andb_true_r.
    destruct Hu as [-> | (u' & -> & Hu')]; [reflexivity|].
    rewrite list_ascii_of_string_app, forallb_app, Hu'. reflexivity. }
  assert (Hafter : after_last_at (u ++ h ++ ":" ++ ds) = h ++ ":" ++ ds).
  { destruct Hu as [-> | (u' & -> & _)].
    - exact (after_last_at_no_at _ Hat).
    - rewrite append_assoc_str. exact (after_last_at_userinfo u' _ Hat). }
  rewrite url_parse_coap.
  replace (u ++ h ++ ":" ++ ds ++ tail) with ((u ++ h ++ ":" ++ ds) ++ tail)
    by (rewrite !append_assoc_str; reflexivity).
  rewrite (span_app_skip _ _ _ Hauth), (span_stop _ _ Htail). cbn [fst snd].
  rewrite append_empty_r, Hafter, (parse_host_port_overflow h ds Hform Hd Hv).
  reflexivity.
Qed.

(** C6: [parse_coap_url] accepts the six URLs of the test
    [test_parse_coap_url_good_url]; an omitted port gives 5683, and the
    brackets of an IPv6 literal are stripped from the host. *)
Theorem parse_coap_url_good_urls :
  parse_coap_url "coap://127.0.0.1" = Ok ("127.0.0.1", 5683, "")
  /\ parse_coap_url "coap://127.0.0.1:5683" = Ok ("127.0.0.1", 5683, "")
  /\ parse_coap_url "coap://[::1]" = Ok ("::1", 5683, "")
  /\ parse_coap_url "coap://[::1]:5683" = Ok ("::1", 5683, "")
  /\ parse_coap_url "coap://[bbbb::9329:f033:f558:7418]"
     = Ok ("bbbb::9329:f033:f558:7418", 5683, "")
  /\ parse_coap_url "coap://[bbbb::9329:f033:f558:7418]:5683"
     = Ok ("bbbb::9329:f033:f558:7418", 5683, "").
Proof. repeat split; vm_compute; reflexivity. Qed.

(** C7: [parse_coap_url] rejects the four URLs of the test
    [test_parse_coap_url_bad_url] with [InvalidInput]; and it fails with
    [InvalidInput] whenever [Url::parse] fails, whenever the host is absent
    or empty, and whenever the port of [coap://[userinfo@]host:port[rest]]
    is beyond 16 bits, for a host without [:] (not beginning with [[]) or a
    bracketed literal, and whatever path, query or fragment follows. *)
Theorem parse_coap_url_bad_urls :
  parse_coap_url "coap://127.0.0.1:65536" = Err InvalidInput
  /\ parse_coap_url "coap://" = Err InvalidInput
  /\ parse_coap_url "coap://:5683" = Err InvalidInput
  /\ parse_coap_url "127.0.0.1" = Err InvalidInput
  /\ (forall url, url_parse url = None -> parse_coap_url url = Err InvalidInput)
  /\ (forall url u, url_parse url = Some u ->
        url_host u = None \/ url_host u = Some EmptyString ->
        parse_coap_url url = Err InvalidInput)
  /\ (forall u h ds tail,
        (u = EmptyString
         \/ exists u', u = u' ++ "@"
             /\ forallb (fun c => negb (is_authority_end c)) (list_ascii_of_string u') = true) ->
        forallb (fun c => negb (is_authority_end c || Ascii.eqb c "@"))
                (list_ascii_of_string h) = true ->
        ((forallb (fun c => negb (Ascii.eqb c ":")) (list_ascii_of_string h) = true
          /\ (h = EmptyString \/ exists c r, h = String c r /\ Ascii.eqb c "[" = false))
         \/ exists a, h = "[" ++ a ++ "]"
             /\ forallb (fun c => negb (Ascii.eqb c "]")) (list_ascii_of_string a) = true) ->
        forallb is_digit (list_ascii_of_string ds) = true ->
        65535 < digits_value ds ->
        (tail = EmptyString \/ exists c t, tail = String c t /\ is_authority_end c = true) ->
        parse_coap_url ("coap://" ++ u ++ h ++ ":" ++ ds ++ tail) = Err InvalidInput).
Proof.
  split; [vm_compute; reflexivity|].
  split; [vm_compute; reflexivity|].
  split; [vm_compute; reflexivity|].
  split; [vm_compute; reflexivity|].
  split; [|split].
  - intros url H. unfold parse_coap_url. rewrite H. reflexivity.
  - intros url u H [Hh | Hh]; unfold parse_coap_url; rewrite H, Hh; reflexivity.
  - intros u h ds tail Hu Hh Hform Hd Hv Ht. unfold parse_coap_url.
    rewrite (url_parse_port_overflow u h ds tail Hu Hh Hform Hd Hv Ht). reflexivity.
Qed.

Lemma parse_coap_url_bad_urls_witness :
  parse_coap_url ("coap://" ++ "" ++ "[::1]" ++ ":" ++ "70000" ++ "/x") = Err InvalidInput.
Proof.
  destruct parse_coap_url_bad_urls as (_ & _ & _ & _ & _ & _ & H).
  apply H.
  - left. reflexivity.
  - reflexivity.
  - right. exists "::1". split; reflexivity.
  - reflexivity.
  - vm_compute. reflexivity.
  - right. exists "/"%char, "x". split; reflexivity.
Defined.

(** *** Observe, unobserve and the session's handles *)

Lemma gen_message_id_small (b : bool) (m : Z) :
  0 <= m < 65535 -> gen_message_id b m = Some (m + 1, m + 1).
Proof.
  intro Hm. unfold gen_message_id.
  destruct (65535 <? m + 1) eqn:E; [apply Z.ltb_lt in E; lia | reflexivity].
Qed.

(** [observe] either fails, leaving the handles, the workers and the
    worker counter as they were, or spawns a worker from a world that has
    them as they were. *)
Lemma observe_cases (b : bool) (env : ObserveEnv) (path : string) (w : World) r w' :
  observe b env path w = Ret (r, w') ->
  (exists e, r = Err e /\ workers w' = workers w /\ next_worker w' = next_worker w
     /\ observe_sender (session w') = observe_sender (session w)
     /\ observe_thread (session w') = observe_thread (session w))
  \/ (r = Ok tt /\ exists w3, workers w3 = workers w /\ next_worker w3 = next_worker w
       /\ observe_sender (session w3) = observe_sender (session w)
       /\ observe_thread (session w3) = observe_thread (session w)
       /\ w' = spawn_worker 1 path w3).
Proof.
  intro H. unfold observe in H.
  rewrite (gen_message_id_small b 0) in H by lia. simpl in H.
  destruct env as [rs st rr cl cn hs]; simpl in H.
  destruct rs; simpl in H; try discriminate;
    try (injection H as <- <-; left; eexists; repeat split; reflexivity).
  destruct st; simpl in H;
    [injection H as <- <-; left; eexists; repeat split; reflexivity|].
  destruct rr as [p| |io]; simpl in H;
    try (injection H as <- <-; left; eexists; repeat split; reflexivity).
  destruct (Status_eqb (get_status p) Content); simpl in H;
    [|injection H as <- <-; left; eexists; repeat split; reflexivity].
  destruct cl; simpl in H;
    [|injection H as <- <-; left; eexists; repeat split; reflexivity].
  destruct cn; simpl in H;
    [injection H as <- <-; left; eexists; repeat split; reflexivity|].
  destruct hs; [|discriminate].
  injection H as <- <-. right. split; [reflexivity|].
  refine (ex_intro _ _ (conj _ (conj _ (conj _ (conj _ eq_refl))))); reflexivity.
Qed.

Lemma Status_eqb_Content (st : Status) : st <> Content -> Status_eqb st Content = false.
Proof. destruct st; simpl; congruence. Qed.

Lemma running_update_drop_sender (c : nat) (ws : list Worker) :
  length (filter (fun wk => WorkerState_eqb (w_state wk) Running)
                 (update_worker c drop_sender ws))
  = length (filter (fun wk => WorkerState_eqb (w_state wk) Running) ws).
Proof.
  induction ws as [|wk ws IH]; simpl; [reflexivity|].
  destruct (Nat.eqb (w_id wk) c); simpl;
    destruct (WorkerState_eqb (w_state wk) Running); simpl; rewrite ?IH; reflexivity.
Qed.

Lemma running_workers_spawn (mid : Z) (path : string) (w : World) :
  running_workers (spawn_worker mid path w) = S (running_workers w).
Proof.
  unfold running_workers, spawn_worker. simpl.
  rewrite filter_app, length_app. simpl.
  destruct (observe_sender (session w)) as [c|];
    [rewrite running_update_drop_sender|]; lia.
Qed.

Lemma unobserve_ret (b : bool) ev drain (w w' : World) :
  unobserve b ev drain w = Ret w' ->
  observe_sender (session w') = None
  /\ (observe_sender (session w) = None -> w' = w)
  /\ (observe_sender (session w) <> None -> observe_thread (session w') = None).
Proof.
  intro H. unfold unobserve in H.
  destruct (observe_sender (session w)) as [c|] eqn:Es.
  - simpl in H. destruct (find_worker c (workers w)) as [wk|]; [|discriminate].
    destruct (negb (WorkerState_eqb (w_state wk) Running)); [discriminate|].
    destruct (worker_on_terminate b (w_message_id wk) (w_path wk) ev drain) as [st sent].
    destruct (observe_thread (session w)) as [h|] eqn:Et.
    + simpl in H. destruct (find_worker h _) as [wh|]; [|discriminate].
      destruct (w_state wh); try discriminate.
      injection H as <-. simpl. repeat split; congruence.
    + injection H as <-. simpl. repeat split; congruence.
  - injection H as <-. rewrite Es. repeat split; congruence.
Qed.

(** In every reachable world the worker handle is only present with its
    sender. *)
Lemma reachable_handles (b : bool) (w : World) :
  reachable b w ->
  observe_sender (session w) = None -> observe_thread (session w) = None.
Proof.
  induction 1 as [peer | w env path r w' Hw IH Ho | w ev drain w' Hw IH Hu].
  - reflexivity.
  - destruct (observe_cases b env path w r w' Ho)
      as [(e & _ & _ & _ & Hs & Ht) | (_ & w3 & _ & _ & _ & _ & ->)].
    + rewrite Hs, Ht. exact IH.
    + simpl. discriminate.
  - destruct (unobserve_ret b ev drain w w' Hu) as (Hs' & Hnone & Hsome).
    intros _. destruct (observe_sender (session w)) eqn:Es.
    + apply Hsome. discriminate.
    + rewrite (Hnone eq_refl). exact (IH eq_refl).
Qed.

(** C4: when the registration response's derived status is not Content,
    [observe] returns [NotFound]; no worker is spawned and the session's
    [observe_sender] and [observe_thread] are unchanged. *)
Theorem observe_not_content_not_found (b : bool) (env : ObserveEnv)
  (path : string) (w : World) (p : Packet) :
  oe_register_send env = SentAll ->
  oe_set_timeout env = None ->
  oe_register_recv env = RecvPacket p ->
  get_status p <> Content ->
  exists w', observe b env path w = Ret (Err NotFound, w')
    /\ observe_sender (session w') = observe_sender (session w)
    /\ observe_thread (session w') = observe_thread (session w)
    /\ workers w' = workers w
    /\ next_worker w' = next_worker w.
Proof.
  intros Hs Ht Hr Hst.
  unfold observe. rewrite (gen_message_id_small b 0) by lia.
  destruct env as [rs st rr cl cn hs]; simpl in *; subst.
  simpl. rewrite (Status_eqb_Content _ Hst). simpl.
  eexists. split; [reflexivity|]. repeat split; reflexivity.
Qed.

Lemma observe_not_content_not_found_witness :
  exists w', observe true
    (mkObserveEnv SentAll None (RecvPacket (mkPacket (mkHeader Acknowledgement 1 132) [] [] []))
                  true None true)
    "/temp" (fresh_world localhost_peer) = Ret (Err NotFound, w')
    /\ observe_sender (session w') = None
    /\ observe_thread (session w') = None
    /\ workers w' = []
    /\ next_worker w' = 0%nat.
Proof.
  exact (observe_not_content_not_found true
    (mkObserveEnv SentAll None (RecvPacket (mkPacket (mkHeader Acknowledgement 1 132) [] [] []))
                  true None true)
    "/temp" (fresh_world localhost_peer) (mkPacket (mkHeader Acknowledgement 1 132) [] [] [])
    eq_refl eq_refl eq_refl ltac:(vm_compute; discriminate)).
Defined.

(** C5: [unobserve] is idempotent: once a call returns, the session's
    sender and worker handle are cleared, and every later [unobserve], as
    well as the [drop] of the session, returns the world unchanged. *)
Theorem unobserve_idempotent (b : bool) (w w' : World) ev drain :
  reachable b w ->
  unobserve b ev drain w = Ret w' ->
  observe_sender (session w') = None
  /\ observe_thread (session w') = None
  /\ (forall ev' drain', unobserve b ev' drain' w' = Ret w'
                         /\ drop b ev' drain' w' = Ret w').
Proof.
  intros Hw Hu.
  destruct (unobserve_ret b ev drain w w' Hu) as (Hs' & Hnone & Hsome).
  assert (Ht' : observe_thread (session w') = None).
  { destruct (observe_sender (session w)) eqn:Es.
    - apply Hsome. discriminate.
    - rewrite (Hnone eq_refl). exact (reachable_handles b w Hw Es). }
  split; [exact Hs'|]. split; [exact Ht'|].
  intros ev' drain'. unfold drop, unobserve. rewrite Hs'. split; reflexivity.
Qed.

Lemma unobserve_idempotent_witness :
  observe_sender (session unobserved_world) = None
  /\ observe_thread (session unobserved_world) = None
  /\ (forall ev' drain', unobserve true ev' drain' unobserved_world = Ret unobserved_world
                         /\ drop true ev' drain' unobserved_world = Ret unobserved_world).
Proof.
  apply (unobserve_idempotent true observed_world unobserved_world SentAll
           (RecvPacket content_packet)).
  - apply (reach_observe true (fresh_world localhost_peer) good_observe_env "/temp" (Ok tt)).
    + apply reach_new.
    + vm_compute. reflexivity.
  - vm_compute. reflexivity.
Defined.

(** C9 (counterexample): a second [observe] on an observing session is not
    rejected; both workers run, and [unobserve] stops only the second. *)
Lemma second_observe_not_rejected :
  match observe true good_observe_env "/temp" (fresh_world localhost_peer) with
  | Ret (Ok _, w1) =>
      match observe true good_observe_env "/temp" w1 with
      | Ret (Ok _, w2) =>
          running_workers w2 = 2%nat
          /\ match unobserve true SentAll (RecvPacket content_packet) w2 with
             | Ret w3 => running_workers w3 = 1%nat
                         /\ observe_sender (session w3) = None
             | _ => False
             end
      | _ => False
      end
  | _ => False
  end.
Proof. vm_compute. repeat split. Qed.

(** What [observe] writes to the wire: the registration request, when
    its write went out. *)
Lemma observe_wire (b : bool) (env : ObserveEnv) (path : string) (w : World) r w' :
  observe b env path w = Ret (r, w') ->
  wire w' = (wire w ++ (if written (oe_register_send env)
                       then [request_message (register_request 1 path)] else []))%list.
Proof.
  intro H. unfold observe in H.
  rewrite (gen_message_id_small b 0) in H by lia. simpl in H.
  destruct env as [rs st rr cl cn hs]; simpl in *.
  destruct rs; simpl in H; try discriminate;
    try (injection H as <- <-; simpl; rewrite ?app_nil_r; reflexivity).
  destruct st; simpl in H; [injection H as <- <-; simpl; rewrite ?app_nil_r; reflexivity|].
  destruct rr as [p| |io]; simpl in H; try (injection H as <- <-; simpl; rewrite ?app_nil_r; reflexivity).
  destruct (Status_eqb (get_status p) Content); simpl in H;
    [|injection H as <- <-; simpl; rewrite ?app_nil_r; reflexivity].
  destruct cl; simpl in H; [|injection H as <- <-; simpl; rewrite ?app_nil_r; reflexivity].
  destruct cn; simpl in H; [injection H as <- <-; simpl; rewrite ?app_nil_r; reflexivity|].
  destruct hs; [|discriminate].
  injection H as <- <-. simpl; rewrite ?app_nil_r; reflexivity.
Qed.

(** C10: every [observe] call starts its own counter at 0: the
    registration request it writes carries message-id 1, whatever the
    session did before, and the worker it spawns keeps the counter at 1,
    so the deregistration request it writes carries message-id 2. *)
Theorem observe_message_ids (b : bool) (env : ObserveEnv) (path : string)
  (w : World) r w' :
  observe b env path w = Ret (r, w') ->
  wire w' = (wire w ++ (if written (oe_register_send env)
                       then [request_message (register_request 1 path)] else []))%list
  /\ h_message_id (header (request_message (register_request 1 path))) = 1
  /\ (r = Ok tt -> In (mkWorker (next_worker w) path 1 Running true) (workers w'))
  /\ (forall dereg drain,
        Forall (fun p => h_message_id (header p) = 2)
               (snd (worker_on_terminate b 1 path dereg drain))).
Proof.
  intro H. split; [exact (observe_wire b env path w r w' H)|].
  split; [reflexivity|]. split.
  - intros ->.
    destruct (observe_cases b env path w (Ok tt) w' H)
      as [(e & He & _) | (_ & w3 & _ & Hn & _ & _ & ->)]; [discriminate|].
    unfold spawn_worker. simpl. rewrite Hn. apply in_or_app. right. left. reflexivity.
  - intros dereg drain. unfold worker_on_terminate.
    rewrite (gen_message_id_small b 1) by lia. simpl.
    destruct dereg; simpl; try destruct (receive_from_socket drain); simpl;
      repeat constructor.
Qed.

Lemma observe_message_ids_witness :
  wire observed_world = [request_message (register_request 1 "/temp")]
  /\ h_message_id (header (request_message (register_request 1 "/temp"))) = 1
  /\ (Ok tt = Ok tt -> In (mkWorker 0 "/temp" 1 Running true) (workers observed_world))
  /\ (forall dereg drain,
        Forall (fun p => h_message_id (header p) = 2)
               (snd (worker_on_terminate true 1 "/temp" dereg drain))).
Proof.
  apply (observe_message_ids true good_observe_env "/temp" (fresh_world localhost_peer) (Ok tt)).
  vm_compute. reflexivity.
Defined.

(** C1 (code defect): a read timeout on the synchronous receive path is
    reported as [InvalidInput], not as the socket's [WouldBlock] (POSIX) or
    [TimedOut] (Windows) that the test [test_get_timeout] expects. *)
Theorem get_with_timeout_timeout_kind (pf : Platform) :
  get_with_timeout (silent_server pf) "coap://127.0.0.1:5683/Rust" 1
    = Ret (Err InvalidInput)
  /\ InvalidInput <> timeout_kind pf.
Proof. split; [vm_compute; reflexivity | destruct pf; discriminate]. Qed.

(** C2: for every notification from which a response envelope is
    derivable, the acknowledgement the worker sends has the message type,
    message-id and token of the incoming message, no options and no
    payload; the handler gets the incoming packet first. *)
Theorem observe_ack_fidelity (peer : SocketAddr) (p : Packet) (resp : CoAPResponse) :
  request_response (CoAPRequest_from_packet p peer) = Some resp ->
  h_type (header (ack_packet resp)) = h_type (header p)
  /\ h_message_id (header (ack_packet resp)) = h_message_id (header p)
  /\ token (ack_packet resp) = token p
  /\ options (ack_packet resp) = []
  /\ payload (ack_packet resp) = []
  /\ (forall ev, ev <> WriteFailed ->
        worker_on_packet peer p ev
        = Ret ([p], if written ev then [ack_packet resp] else [])).
Proof.
  intro H. simpl in H.
  assert (Hr := H).
  unfold CoAPResponse_new in H.
  destruct (requires_ack (h_type (header p))); [|discriminate].
  injection H as <-.
  repeat split; try reflexivity.
  intros ev Hev. unfold worker_on_packet. simpl. rewrite Hr.
  destruct ev; simpl; congruence.
Qed.

Lemma observe_ack_fidelity_witness :
  let p := mkPacket (mkHeader Confirmable 7 69) [1; 2] [] [49] in
  h_type (header (ack_packet (mkResponse (mkPacket (mkHeader Confirmable 7 69) [1; 2] [] []))))
    = h_type (header p)
  /\ h_message_id (header (ack_packet (mkResponse (mkPacket (mkHeader Confirmable 7 69) [1; 2] [] []))))
    = h_message_id (header p)
  /\ token (ack_packet (mkResponse (mkPacket (mkHeader Confirmable 7 69) [1; 2] [] []))) = token p
  /\ options (ack_packet (mkResponse (mkPacket (mkHeader Confirmable 7 69) [1; 2] [] []))) = []
  /\ payload (ack_packet (mkResponse (mkPacket (mkHeader Confirmable 7 69) [1; 2] [] []))) = []
  /\ (forall ev, ev <> WriteFailed ->
        worker_on_packet localhost_peer p ev
        = Ret ([p], if written ev
                    then [ack_packet (mkResponse (mkPacket (mkHeader Confirmable 7 69) [1; 2] [] []))]
                    else [])).
Proof.
  intro p.
  apply (observe_ack_fidelity localhost_peer p
           (mkResponse (mkPacket (mkHeader Confirmable 7 69) [1; 2] [] []))).
  reflexivity.
Defined.

(** C3 (code defect): on [Terminate] the worker [unwrap]s the deregister
    send and the drain read; when the server does not acknowledge the
    deregistration within the read timeout, or the write is short, the
    worker panics and [unobserve] (and so [drop]) re-raises the panic
    through [join().unwrap()]. *)
Theorem deregister_errors_panic :
  unobserve true SentAll (RecvSslError (Some WouldBlock)) observed_world = Panic
  /\ unobserve true SentShort (RecvPacket content_packet) observed_world = Panic
  /\ drop true SentAll (RecvSslError (Some WouldBlock)) observed_world = Panic
  /\ unobserve true SentAll (RecvPacket content_packet) observed_world = Ret unobserved_world.
Proof. repeat split; vm_compute; reflexivity. Qed.

(** ** Further properties of the code *)

(** *** URL parsing: the shape of what [parse_coap_url] returns *)

Lemma opaque_char_facts (c : ascii) :
  negb (char_in " #/:<>?@[\]^|" c || Ascii.eqb c newline
        || (code c =? 0) || (code c =? 9) || (code c =? 13)) = true ->
  Ascii.eqb c "[" = false /\ char_in "[]" c = false.
Proof.
  destruct c as [b0 b1 b2 b3 b4 b5 b6 b7].
  destruct b0, b1, b2, b3, b4, b5, b6, b7; vm_compute;
    first [discriminate | intros _; split; reflexivity].
Qed.

Lemma ipv6_char_facts (c : ascii) :
  (is_hex c || char_in ":." c) = true ->
  Ascii.eqb c newline = false /\ char_in "[]" c = false.
Proof.
  destruct c as [b0 b1 b2 b3 b4 b5 b6 b7].
  destruct b0, b1, b2, b3, b4, b5, b6, b7; vm_compute;
    first [discriminate | intros _; split; reflexivity].
Qed.

Lemma digit_value_range (c : ascii) : is_digit c = true -> 0 <= digit_value c <= 9.
Proof.
  unfold is_digit, digit_value. intro H. apply andb_prop in H as [H1 H2].
  apply Z.leb_le in H1, H2. lia.
Qed.

Lemma parse_port_acc_range (ds : string) (acc p : Z) :
  0 <= acc <= 65535 -> parse_port_acc acc ds = Some p -> 0 <= p <= 65535.
Proof.
  revert acc. induction ds as [|c ds IH]; simpl; intros acc Hacc H.
  - injection H as <-. exact Hacc.
  - destruct (is_digit c) eqn:Hd; [|discriminate].
    destruct (65535 <? acc * 10 + digit_value c) eqn:E; [discriminate|].
    apply Z.ltb_ge in E. pose proof (digit_value_range c Hd).
    apply (IH (acc * 10 + digit_value c)); [lia | exact H].
Qed.

Lemma parse_port_part_range (rest : string) (port : option Z) (p : Z) :
  parse_port_part rest = Some port -> port = Some p -> 0 <= p <= 65535.
Proof.
  destruct rest as [|c ds]; simpl; [intros H; injection H as <-; discriminate|].
  destruct (Ascii.eqb c ":"); [|discriminate].
  unfold parse_port. destruct ds as [|d ds']; [intros H; injection H as <-; discriminate|].
  destruct (parse_port_acc 0 (String d ds')) as [q|] eqn:E; [|discriminate].
  intros H Hp. injection H as <-. injection Hp as ->.
  apply (parse_port_acc_range (String d ds') 0); [lia | exact E].
Qed.

Lemma parse_host_port_shape (hp h : string) (port : option Z) :
  parse_host_port hp = Some (h, port) ->
  (valid_opaque h = true
   \/ exists inner, h = "[" ++ inner ++ "]" /\ valid_ipv6 inner = true)
  /\ (forall p, port = Some p -> 0 <= p <= 65535).
Proof.
  unfold parse_host_port. destruct hp as [|c r].
  - intro H. injection H as <- <-. split; [left; reflexivity | discriminate].
  - destruct (Ascii.eqb c "[").
    + destruct (span (Ascii.eqb "]") r) as [inner after].
      destruct after as [|c' after']; [discriminate|].
      destruct (valid_ipv6 inner) eqn:Hv; [|discriminate].
      destruct (parse_port_part after') as [p|] eqn:Ep; [|discriminate].
      intro H. injection H as <- <-. split.
      * right. exists inner. split; [reflexivity | exact Hv].
      * intros q Hq. exact (parse_port_part_range _ _ _ Ep Hq).
    + destruct (span (Ascii.eqb ":") (String c r)) as [h0 rest].
      destruct (String.eqb h0 "" && negb (String.eqb rest "")); [discriminate|].
      destruct (valid_opaque h0) eqn:Ho; [|discriminate].
      destruct (parse_port_part rest) as [p|] eqn:Ep; [|discriminate].
      intro H. injection H as <- <-. split; [left; exact Ho|].
      intros q Hq. exact (parse_port_part_range _ _ _ Ep Hq).
Qed.

Lemma url_parse_shape (s : string) (u : Url) :
  url_parse s = Some u ->
  (forall h, url_host u = Some h ->
     valid_opaque h = true
     \/ exists inner, h = "[" ++ inner ++ "]" /\ valid_ipv6 inner = true)
  /\ (forall p, url_port u = Some p -> 0 <= p <= 65535).
Proof.
  unfold url_parse. destruct (parse_scheme s) as [[sc rest]|]; [|discriminate].
  destruct rest as [|c1 [|c2 after]];
    try (intro H; injection H as <-; split; simpl; discriminate).
  destruct (Ascii.eqb c1 "/" && Ascii.eqb c2 "/");
    [|intro H; injection H as <-; split; simpl; discriminate].
  destruct (span is_authority_end after) as [auth tail].
  destruct (parse_host_port (after_last_at auth)) as [[host port]|] eqn:E;
    [|discriminate].
  intro H. injection H as <-. simpl.
  destruct (parse_host_port_shape _ _ _ E) as [Hh Hp].
  split; [intros h' Hh'; injection Hh' as <-; exact Hh | exact Hp].
Qed.

Lemma bracket_body_app (x : string) :
  forallb (fun c => negb (Ascii.eqb c newline)) (list_ascii_of_string x) = true ->
  bracket_body (x ++ "]") = Some x.
Proof.
  induction x as [|c x IH]; simpl; intro H; [reflexivity|].
  apply andb_prop in H as [Hc Hx].
  destruct (Ascii.eqb c newline); [discriminate|].
  destruct x as [|c' x']; simpl in *.
  - reflexivity.
  - rewrite (IH Hx). destruct (Ascii.eqb c newline); reflexivity.
Qed.

Lemma bracket_body_inv (r x : string) :
  bracket_body r = Some x ->
  r = x ++ "]"
  /\ forallb (fun c => negb (Ascii.eqb c newline)) (list_ascii_of_string x) = true.
Proof.
  revert x. induction r as [|c r IH]; intros x H; simpl in H; [discriminate|].
  destruct r as [|c' r'].
  - destruct (Ascii.eqb c "]") eqn:E; [|discriminate].
    injection H as <-. apply Ascii.eqb_eq in E. subst c. split; reflexivity.
  - destruct (Ascii.eqb c newline) eqn:En; [discriminate|].
    destruct (bracket_body (String c' r')) as [y|] eqn:B; [|discriminate].
    injection H as <-. destruct (IH y eq_refl) as [Hr Hy].
    rewrite Hr. simpl. rewrite En, Hy. split; reflexivity.
Qed.

Lemma strip_brackets_wrap (x : string) :
  forallb (fun c => negb (Ascii.eqb c newline)) (list_ascii_of_string x) = true ->
  strip_brackets ("[" ++ x ++ "]") = x.
Proof. intro H. simpl. rewrite (bracket_body_app x H). reflexivity. Qed.

(** On every URL it accepts, [parse_coap_url] returns a non-empty host
    with no bracket in it and a port in the 16-bit range. *)
Theorem parse_coap_url_result_shape (url host path : string) (port : Z) :
  parse_coap_url url = Ok (host, port, path) ->
  host <> EmptyString
  /\ forallb (fun c => negb (char_in "[]" c)) (list_ascii_of_string host) = true
  /\ 0 <= port <= 65535.
Proof.
  unfold parse_coap_url. destruct (url_parse url) as [u|] eqn:U; [|discriminate].
  destruct (url_parse_shape url u U) as [Hh Hp].
  destruct (url_host u) as [h|] eqn:Eh; [|discriminate].
  destruct (String.eqb h "") eqn:He; [discriminate|].
  intro H. injection H as Hhost Hport Hpath.
  split; [|split].
  - destruct (Hh h eq_refl) as [Ho | (inner & -> & Hi)].
    + destruct h as [|c r]; [discriminate|].
      unfold valid_opaque in Ho. simpl in Ho. apply andb_prop in Ho as [Hc _].
      destruct (opaque_char_facts c Hc) as [Hb _].
      rewrite <- Hhost. unfold strip_brackets. rewrite Hb. discriminate.
    + apply andb_prop in Hi as [Hchars Hcolon].
      rewrite <- Hhost.
      rewrite strip_brackets_wrap.
      * intro E. rewrite E in Hcolon. discriminate.
      * eapply forallb_weaken; [|exact Hchars].
        intros c Hc. destruct (ipv6_char_facts c Hc) as [-> _]. reflexivity.
  - destruct (Hh h eq_refl) as [Ho | (inner & -> & Hi)].
    + destruct h as [|c r]; [discriminate|].
      assert (Hs : strip_brackets (String c r) = String c r).
      { unfold valid_opaque in Ho. simpl in Ho. apply andb_prop in Ho as [Hc _].
        destruct (opaque_char_facts c Hc) as [Hb _].
        unfold strip_brackets. rewrite Hb. reflexivity. }
      rewrite <- Hhost, Hs.
      eapply forallb_weaken; [|exact Ho].
      intros c0 Hc0. destruct (opaque_char_facts c0 Hc0) as [_ ->]. reflexivity.
    + apply andb_prop in Hi as [Hchars _].
      rewrite <- Hhost, strip_brackets_wrap.
      * eapply forallb_weaken; [|exact Hchars].
        intros c Hc. destruct (ipv6_char_facts c Hc) as [_ ->]. reflexivity.
      * eapply forallb_weaken; [|exact Hchars].
        intros c Hc. destruct (ipv6_char_facts c Hc) as [-> _]. reflexivity.
  - rewrite <- Hport. destruct (url_port u) as [p|] eqn:P.
    + exact (Hp p eq_refl).
    + unfold DEFAULT_PORT. lia.
Qed.

Lemma parse_coap_url_result_shape_witness :
  "::1" <> EmptyString
  /\ forallb (fun c => negb (char_in "[]" c)) (list_ascii_of_string "::1") = true
  /\ 0 <= 5683 <= 65535.
Proof.
  apply (parse_coap_url_result_shape "coap://[::1]:5683/temp" "::1" "/temp" 5683).
  vm_compute. reflexivity.
Defined.

(** The regular expression [^\[(.*?)]$] with replacement [$1]: a host
    written [[x]] with no newline in [x] becomes [x]; any other host is
    returned as it is. *)
Theorem strip_brackets_regex :
  (forall x, forallb (fun c => negb (Ascii.eqb c newline)) (list_ascii_of_string x) = true ->
     strip_brackets ("[" ++ x ++ "]") = x)
  /\ (forall s, strip_brackets s = s
       \/ exists x, s = "[" ++ x ++ "]"
           /\ forallb (fun c => negb (Ascii.eqb c newline)) (list_ascii_of_string x) = true
           /\ strip_brackets s = x).
Proof.
  split; [exact strip_brackets_wrap|].
  intro s. destruct s as [|c r]; [left; reflexivity|].
  destruct (Ascii.eqb c "[") eqn:E; [|left; unfold strip_brackets; rewrite E; reflexivity].
  destruct (bracket_body r) as [x|] eqn:B;
    [|left; unfold strip_brackets; rewrite E, B; reflexivity].
  right. destruct (bracket_body_inv r x B) as [Hr Hx].
  apply Ascii.eqb_eq in E. subst c r. exists x.
  split; [reflexivity|]. split; [exact Hx|]. exact (strip_brackets_wrap x Hx).
Qed.

Lemma strip_brackets_regex_witness :
  strip_brackets ("[" ++ "fe80::1" ++ "]") = "fe80::1".
Proof. destruct strip_brackets_regex as [H _]. apply H. reflexivity. Defined.

Lemma digits_value_acc_mono (ds : string) (acc : Z) :
  0 <= acc -> forallb is_digit (list_ascii_of_string ds) = true ->
  acc <= digits_value_acc acc ds.
Proof.
  revert acc. induction ds as [|c ds IH]; simpl; intros acc Hacc Hd; [lia|].
  apply andb_prop in Hd as [Hc Hds]. pose proof (digit_value_range c Hc).
  specialize (IH (acc * 10 + digit_value c) ltac:(lia) Hds). lia.
Qed.

Lemma parse_port_acc_value (ds : string) (acc : Z) :
  0 <= acc -> forallb is_digit (list_ascii_of_string ds) = true ->
  digits_value_acc acc ds <= 65535 ->
  parse_port_acc acc ds = Some (digits_value_acc acc ds).
Proof.
  revert acc. induction ds as [|c ds IH]; simpl; intros acc Hacc Hd Hv; [reflexivity|].
  apply andb_prop in Hd as [Hc Hds]. rewrite Hc. pose proof (digit_value_range c Hc).
  pose proof (digits_value_acc_mono ds (acc * 10 + digit_value c) ltac:(lia) Hds).
  destruct (65535 <? acc * 10 + digit_value c) eqn:E; [apply Z.ltb_lt in E; lia|].
  apply IH; [lia | exact Hds | exact Hv].
Qed.

Lemma path_char_not_query (c : ascii) :
  in_path_set c = false -> is_query_start c = false.
Proof.
  destruct c as [b0 b1 b2 b3 b4 b5 b6 b7].
  destruct b0, b1, b2, b3, b4, b5, b6, b7; vm_compute;
    first [discriminate | intros _; reflexivity].
Qed.

Lemma percent_encode_plain (s : string) :
  forallb (fun c => negb (in_path_set c)) (list_ascii_of_string s) = true ->
  percent_encode s = s.
Proof.
  induction s as [|c s IH]; simpl; intro H; [reflexivity|].
  apply andb_prop in H as [Hc Hs]. apply negb_true_iff in Hc.
  unfold percent_encode_char. rewrite Hc. simpl. rewrite (IH Hs). reflexivity.
Qed.

Lemma split_slash_forall (P : ascii -> bool) (s : string) :
  forallb P (list_ascii_of_string s) = true ->
  Forall (fun seg => forallb P (list_ascii_of_string seg) = true) (split_slash s).
Proof.
  induction s as [|c s IH]; simpl; intro H; [repeat constructor|].
  apply andb_prop in H as [Hc Hs]. specialize (IH Hs).
  destruct (Ascii.eqb c "/"); [constructor; [reflexivity | exact IH]|].
  destruct (split_slash s) as [|seg rest].
  - constructor; [simpl; rewrite Hc; reflexivity | constructor].
  - inversion IH as [|x l Hseg Hrest]; subst.
    constructor; [simpl; rewrite Hc, Hseg; reflexivity | exact Hrest].
Qed.

Lemma map_id_forall {A : Type} (f : A -> A) (l : list A) :
  Forall (fun x => f x = x) l -> map f l = l.
Proof. induction 1 as [|x l Hx _ IH]; simpl; [reflexivity | rewrite Hx, IH; reflexivity]. Qed.

Lemma path_push_plain (acc segs : list string) :
  forallb (fun seg => negb (dot_segment seg)) segs = true ->
  path_push acc segs = (acc ++ segs)%list.
Proof.
  revert acc. induction segs as [|seg rest IH]; intros acc H; simpl.
  - rewrite app_nil_r. reflexivity.
  - simpl in H. apply andb_prop in H as [Hs Hr].
    unfold dot_segment in Hs. apply negb_true_iff, orb_false_iff in Hs as [H1 H2].
    rewrite H2, H1, (IH _ Hr), <- app_assoc. reflexivity.
Qed.

Lemma serialize_split_slash (r : string) :
  serialize_path (split_slash r) = "/" ++ r.
Proof.
  induction r as [|c r IH]; simpl; [reflexivity|].
  destruct (Ascii.eqb c "/") eqn:E.
  - apply Ascii.eqb_eq in E. subst c. simpl. rewrite IH. reflexivity.
  - destruct (split_slash r) as [|seg rest]; simpl in IH; [discriminate|].
    injection IH as IH. simpl. rewrite IH. reflexivity.
Qed.

(** A path with no character to encode and no dot segment is kept as it
    is. *)
Lemma parse_path_plain (r : string) :
  forallb (fun c => negb (in_path_set c)) (list_ascii_of_string r) = true ->
  forallb (fun seg => negb (dot_segment seg)) (split_slash r) = true ->
  parse_path (String "/" r) = String "/" r.
Proof.
  intros Hr Hd. unfold parse_path.
  replace (Ascii.eqb "/" "/") with true by reflexivity.
  rewrite map_id_forall.
  - rewrite (path_push_plain [] _ Hd). simpl. apply serialize_split_slash.
  - eapply Forall_impl; [|exact (split_slash_forall _ r Hr)].
    intros seg Hseg. exact (percent_encode_plain seg Hseg).
Qed.

(** How [parse_coap_url] splits [coap://host[:port]path[?query|#fragment]]
    for a plain host and a plain path (no character that the url crate
    percent-encodes, no [.] or [..] segment): the host as written, the port
    given (5683 when it is omitted), and the path as written, without its
    query or fragment. *)
Theorem parse_coap_url_components (h port_part path q : string) :
  h <> EmptyString ->
  forallb simple_host_char (list_ascii_of_string h) = true ->
  (port_part = EmptyString
   \/ exists ds, port_part = String ":" ds /\ ds <> EmptyString
       /\ forallb is_digit (list_ascii_of_string ds) = true /\ digits_value ds <= 65535) ->
  (path = EmptyString
   \/ exists r, path = String "/" r
       /\ forallb (fun c => negb (in_path_set c)) (list_ascii_of_string r) = true
       /\ forallb (fun seg => negb (dot_segment seg)) (split_slash r) = true) ->
  (q = EmptyString \/ exists c r, q = String c r /\ is_query_start c = true) ->
  parse_coap_url ("coap://" ++ h ++ port_part ++ path ++ q)
  = Ok (h, match port_part with
           | String _ ds => digits_value ds
           | EmptyString => 5683
           end, path).
Proof.
  intros Hne Hh Hport Hplain Hq.
  assert (Hslash : path = EmptyString \/ exists r, path = String "/" r)
    by (destruct Hplain as [-> | (r & -> & _)]; [left | right; exists r]; reflexivity).
  assert (Hpath : forallb (fun c => negb (is_query_start c)) (list_ascii_of_string path) = true).
  { destruct Hplain as [-> | (r & -> & Hr & _)]; [reflexivity|].
    simpl. eapply forallb_weaken; [|exact Hr].
    intros c Hc. apply negb_true_iff in Hc. rewrite (path_char_not_query c Hc). reflexivity. }
  assert (Hpp : parse_path path = path).
  { destruct Hplain as [-> | (r & -> & Hr & Hd)]; [reflexivity|].
    exact (parse_path_plain r Hr Hd). }
  assert (Hpshape : port_part = EmptyString \/ exists ds, port_part = String ":" ds)
    by (destruct Hport as [-> | (ds & -> & _)]; [left | right; exists ds]; reflexivity).
  assert (Hall : forallb (fun c => simple_host_char c || Ascii.eqb c ":")
                   (list_ascii_of_string (h ++ port_part)) = true).
  { rewrite list_ascii_of_string_app, forallb_app. apply andb_true_intro. split.
    - eapply forallb_weaken; [|exact Hh]. intros c Hc. rewrite Hc. reflexivity.
    - destruct Hport as [-> | (ds & -> & _ & Hd & _)]; [reflexivity|].
      simpl. eapply forallb_weaken; [|exact Hd].
      intros c Hc. rewrite (digit_simple c Hc). reflexivity. }
  assert (Hauth : forallb (fun c => negb (is_authority_end c))
                    (list_ascii_of_string (h ++ port_part)) = true).
  { eapply forallb_weaken; [|exact Hall].
    intros c Hc. destruct (authority_char_facts c Hc) as [-> _]. reflexivity. }
  assert (Htail : span is_authority_end (path ++ q) = (EmptyString, path ++ q)).
  { apply span_stop. destruct Hslash as [-> | (r & ->)].
    - destruct Hq as [-> | (c & r & -> & Hc)]; [left; reflexivity|].
      right. exists c, r. split; [reflexivity|].
      revert Hc. unfold is_query_start, is_authority_end, char_in. simpl.
      intro Hc. rewrite Hc. apply orb_true_r.
    - right. exists "/"%char, (r ++ q). split; reflexivity. }
  assert (Hat : has_at (h ++ port_part) = false).
  { apply forallb_has_at. eapply forallb_weaken; [|exact Hall].
    intros c Hc. destruct (authority_char_facts c Hc) as [_ ->]. reflexivity. }
  assert (Hquery : span is_query_start (path ++ q) = (path, q)).
  { rewrite (span_app_skip _ _ _ Hpath). rewrite span_stop by exact Hq.
    simpl. rewrite append_empty_r. reflexivity. }
  destruct h as [|c h']; [contradiction|].
  assert (Hc : simple_host_char c = true) by (simpl in Hh; apply andb_prop in Hh; tauto).
  destruct (simple_host_char_facts c Hc) as (_ & _ & _ & _ & Hbr & _).
  assert (Hcolon : forallb (fun c0 => negb (Ascii.eqb ":" c0))
                     (list_ascii_of_string (String c h')) = true).
  { eapply forallb_weaken; [|exact Hh].
    intros c0 Hc0. destruct (simple_host_char_facts c0 Hc0) as (_ & -> & _). reflexivity. }
  assert (Hopaque : valid_opaque (String c h') = true).
  { unfold valid_opaque. eapply forallb_weaken; [|exact Hh].
    intros c0 Hc0. destruct (simple_host_char_facts c0 Hc0) as (_ & _ & _ & _ & _ & H).
    exact H. }
  assert (Hhp : parse_host_port (String c h' ++ port_part)
                = Some (String c h', match port_part with
                                     | String _ ds => Some (digits_value ds)
                                     | EmptyString => None
                                     end)).
  { replace (String c h' ++ port_part) with (String c (h' ++ port_part)) by reflexivity.
    unfold parse_host_port. rewrite Hbr.
    replace (String c (h' ++ port_part)) with (String c h' ++ port_part) by reflexivity.
    rewrite (span_app_skip _ _ _ Hcolon).
    rewrite (span_stop (Ascii.eqb ":") port_part).
    2:{ destruct Hpshape as [-> | (ds & ->)]; [left; reflexivity|].
        right. exists ":"%char, ds. split; reflexivity. }
    simpl fst; simpl snd. rewrite append_empty_r. rewrite Hopaque.
    replace (String.eqb (String c h') "") with false by reflexivity. simpl andb.
    destruct Hport as [-> | (ds & -> & Hdne & Hd & Hv)]; [reflexivity|].
    unfold parse_port_part. replace (Ascii.eqb ":" ":") with true by reflexivity.
    unfold parse_port. destruct ds as [|d ds']; [contradiction|].
    rewrite (parse_port_acc_value (String d ds') 0); [reflexivity | lia | exact Hd | exact Hv]. }
  unfold parse_coap_url. rewrite url_parse_coap.
  replace (String c h' ++ port_part ++ path ++ q)
    with ((String c h' ++ port_part) ++ (path ++ q)) by (rewrite append_assoc_str; reflexivity).
  rewrite (span_app_skip _ _ _ Hauth), Htail. simpl fst; simpl snd.
  rewrite append_empty_r, (after_last_at_no_at _ Hat), Hhp, Hquery. cbn [fst].
  rewrite Hpp. simpl.
  unfold strip_brackets. rewrite Hbr.
  destruct port_part; reflexivity.
Qed.

Lemma parse_coap_url_components_witness :
  parse_coap_url ("coap://" ++ "coap.me" ++ ":5684" ++ "/hello" ++ "?x=1")
  = Ok ("coap.me", 5684, "/hello").
Proof.
  apply (parse_coap_url_components "coap.me" ":5684" "/hello" "?x=1").
  - discriminate.
  - reflexivity.
  - right. exists "5684". repeat split; try reflexivity; try discriminate;
      vm_compute; discriminate.
  - right. exists "hello". repeat split.
  - right. exists "?"%char, "x=1". split; reflexivity.
Defined.

(** *** [observe]: receive timeout and handler *)

(** Once the registration is sent and the timeout installed, [observe]
    leaves the session's receive timeout at 1 s, whatever it was before and
    whatever the outcome. *)
Theorem observe_resets_timeout (b : bool) (env : ObserveEnv) (path : string)
  (w w' : World) r :
  oe_register_send env = SentAll -> oe_set_timeout env = None ->
  observe b env path w = Ret (r, w') ->
  read_timeout (session w') = Some DEFAULT_RECEIVE_TIMEOUT.
Proof.
  intros Hs Ht H. unfold observe in H.
  rewrite (gen_message_id_small b 0) in H by lia.
  destruct env as [rs st rr cl cn hs]; simpl in *; subst. simpl in H.
  destruct rr as [p| |io]; simpl in H; try (injection H as <- <-; reflexivity).
  destruct (Status_eqb (get_status p) Content); simpl in H;
    [|injection H as <- <-; reflexivity].
  destruct cl; simpl in H; [|injection H as <- <-; reflexivity].
  destruct cn; simpl in H; [injection H as <- <-; reflexivity|].
  destruct hs; [|discriminate]. injection H as <- <-. reflexivity.
Qed.

Lemma observe_resets_timeout_witness :
  read_timeout (session observed_world) = Some DEFAULT_RECEIVE_TIMEOUT.
Proof.
  apply (observe_resets_timeout true good_observe_env "/temp"
           (mkWorld (mkClient localhost_peer None None (Some 30)) [] 0 [] []) _ (Ok tt));
    [reflexivity | reflexivity | vm_compute; reflexivity].
Defined.

Lemma Status_eqb_true (a b : Status) : Status_eqb a b = true -> a = b.
Proof. destruct a, b; simpl; congruence. Qed.

(** [observe] calls the handler at most once, and only with the
    registration response when its status is Content. *)
Theorem observe_handler_once (b : bool) (env : ObserveEnv) (path : string)
  (w w' : World) r :
  observe b env path w = Ret (r, w') ->
  handled w' = handled w
  \/ exists p, oe_register_recv env = RecvPacket p /\ get_status p = Content
       /\ handled w' = (handled w ++ [p])%list.
Proof.
  intro H. unfold observe in H.
  rewrite (gen_message_id_small b 0) in H by lia. simpl in H.
  destruct env as [rs st rr cl cn hs]; simpl in *.
  destruct rs; simpl in H; try discriminate;
    try (injection H as <- <-; left; reflexivity).
  destruct st; simpl in H; [injection H as <- <-; left; reflexivity|].
  destruct rr as [p| |io]; simpl in H; try (injection H as <- <-; left; reflexivity).
  destruct (Status_eqb (get_status p) Content) eqn:Es; simpl in H;
    [|injection H as <- <-; left; reflexivity].
  apply Status_eqb_true in Es.
  destruct cl; simpl in H;
    [|injection H as <- <-; right; exists p; repeat split; assumption].
  destruct cn; simpl in H;
    [injection H as <- <-; right; exists p; repeat split; assumption|].
  destruct hs; [|discriminate].
  injection H as <- <-. right. exists p. repeat split; assumption.
Qed.

Lemma observe_handler_once_witness :
  handled observed_world = handled (fresh_world localhost_peer)
  \/ exists p, oe_register_recv good_observe_env = RecvPacket p /\ get_status p = Content
       /\ handled observed_world = (handled (fresh_world localhost_peer) ++ [p])%list.
Proof.
  apply (observe_handler_once true good_observe_env "/temp" _ _ (Ok tt)).
  vm_compute. reflexivity.
Defined.

(** *** The worker loop *)

(** A pass of the worker loop breaks exactly when the poll yields
    [Terminate]; the handler gets the packet read, if one was decoded, and
    nothing otherwise; a read error (a timeout included) with no
    [Terminate] pending is swallowed: nothing is handled or sent, and the
    loop goes on. With the sender dropped ([Disconnected]) the loop never
    breaks. *)
Theorem worker_iteration_behaviour :
  (forall b peer mid path read ack poll dereg drain hs ws brk,
     worker_iteration b peer mid path read ack poll dereg drain = Ret (hs, ws, brk) ->
     (brk = true <-> poll = RecvTerminate)
     /\ hs = match read with RecvPacket p => [p] | _ => [] end)
  /\ (forall b peer mid path read ack poll dereg drain,
        poll <> RecvTerminate -> (forall p, read <> RecvPacket p) ->
        worker_iteration b peer mid path read ack poll dereg drain = Ret ([], [], false)).
Proof.
  split.
  - intros b peer mid path read ack poll dereg drain hs ws brk H.
    unfold worker_iteration, worker_on_packet in H.
    destruct read as [p| |io], ack, poll; simpl in H;
      try destruct (CoAPResponse_new p); simpl in H;
      try destruct (worker_on_terminate b mid path dereg drain) as [[] sent];
      try discriminate; injection H as <- <- <-;
      (split; [split; first [reflexivity | discriminate] | reflexivity]).
  - intros b peer mid path read ack poll dereg drain Hpoll Hread.
    unfold worker_iteration.
    destruct read as [p| |io]; [exfalso; exact (Hread p eq_refl)| |];
      simpl; destruct poll; try contradiction; reflexivity.
Qed.

Lemma worker_iteration_behaviour_witness :
  worker_iteration true localhost_peer 1 "/temp" (RecvSslError (Some WouldBlock))
    SentAll RecvDisconnected SentAll RecvGarbage = Ret ([], [], false).
Proof.
  destruct worker_iteration_behaviour as [_ H].
  apply H; [discriminate | intros p; discriminate].
Defined.

(** *** The PSK client callback *)

Lemma write_all_fits (data buf : list Z) :
  (length data <= length buf)%nat ->
  write_all data buf = Some (data ++ skipn (length data) buf)%list.
Proof.
  intro Hl. unfold write_all.
  destruct data as [|x xs]; [reflexivity|].
  cbn [write_all_fuel].
  rewrite Nat.min_l by exact Hl.
  cbn [Nat.eqb length].
  replace (skipn (S (length xs)) (x :: xs)) with (@nil Z)
    by (symmetry; exact (skipn_all (x :: xs))).
  replace (firstn (S (length xs)) (x :: xs)) with (x :: xs)
    by (symmetry; exact (firstn_all (x :: xs))).
  reflexivity.
Qed.

Lemma write_all_overflow (data buf : list Z) :
  (length buf < length data)%nat -> write_all data buf = None.
Proof.
  intro Hl. unfold write_all.
  destruct data as [|x xs]; [simpl in Hl; lia|].
  cbn [write_all_fuel].
  rewrite Nat.min_r by lia.
  destruct buf as [|y ys]; [reflexivity|].
  cbn [Nat.eqb length]. simpl length in Hl.
  replace (skipn (S (length ys)) (y :: ys)) with (@nil Z)
    by (symmetry; exact (skipn_all (y :: ys))).
  destruct (length xs) as [|n] eqn:En; [lia|].
  cbn [write_all_fuel].
  destruct (skipn (S (length ys)) (x :: xs)) as [|z zs] eqn:Es.
  - apply (f_equal (@length Z)) in Es.
    rewrite length_skipn in Es. simpl in Es. lia.
  - rewrite Nat.min_r by (simpl; lia). reflexivity.
Qed.

(** With both variables set, the callback copies [COAP_ID] to the front of
    the identity buffer and [COAP_KEY] to the front of the PSK buffer,
    leaves the rest of each buffer as it was, and returns the key's length,
    provided each fits its buffer. It panics when a value is longer than its
    buffer ([write_all] fails with [WriteZero]) and when either variable is
    unset (the lazy statics' [expect]); [COAP_ID] is read and written before
    [COAP_KEY] is read. *)
Theorem psk_client_callback_spec :
  (forall id key ib pb,
     (length id <= length ib)%nat -> (length key <= length pb)%nat ->
     psk_client_callback (Some id) (Some key) ib pb
     = Ret (Z.of_nat (length key), (id ++ skipn (length id) ib)%list,
            (key ++ skipn (length key) pb)%list))
  /\ (forall id key ib pb,
        (length ib < length id)%nat -> psk_client_callback (Some id) key ib pb = Panic)
  /\ (forall id key ib pb,
        (length id <= length ib)%nat -> (length pb < length key)%nat ->
        psk_client_callback (Some id) (Some key) ib pb = Panic)
  /\ (forall key ib pb, psk_client_callback None key ib pb = Panic)
  /\ (forall id ib pb,
        (length id <= length ib)%nat -> psk_client_callback (Some id) None ib pb = Panic).
Proof.
  unfold psk_client_callback.
  repeat split.
  - intros id key ib pb Hi Hk.
    rewrite (write_all_fits id ib Hi), (write_all_fits key pb Hk). reflexivity.
  - intros id key ib pb Hi. rewrite (write_all_overflow id ib Hi). reflexivity.
  - intros id key ib pb Hi Hk.
    rewrite (write_all_fits id ib Hi), (write_all_overflow key pb Hk). reflexivity.
  - intros id ib pb Hi. rewrite (write_all_fits id ib Hi). reflexivity.
Qed.

Lemma psk_client_callback_spec_witness :
  psk_client_callback (Some [99; 108]) (Some [107; 101; 121]) [0; 0; 0; 0] [0; 0; 0; 0; 0]
  = Ret (3, [99; 108; 0; 0], [107; 101; 121; 0; 0]).
Proof.
  destruct psk_client_callback_spec as [H _].
  apply (H [99; 108] [107; 101; 121] [0; 0; 0; 0] [0; 0; 0; 0; 0]); simpl; lia.
Defined.

(** *** Observe followed by unobserve *)

Lemma update_worker_ids_forall (P : nat -> Prop) (c : nat) (f : Worker -> Worker)
  (ws : list Worker) :
  (forall wk, w_id (f wk) = w_id wk) ->
  Forall (fun wk => P (w_id wk)) ws -> Forall (fun wk => P (w_id wk)) (update_worker c f ws).
Proof.
  intros Hf Hws. unfold update_worker. apply Forall_map.
  eapply Forall_impl; [|exact Hws]. intros wk Hp. simpl.
  destruct (Nat.eqb (w_id wk) c); [rewrite Hf|]; exact Hp.
Qed.

Lemma update_worker_absent (c : nat) (f : Worker -> Worker) (ws : list Worker) :
  Forall (fun wk => (w_id wk < c)%nat) ws -> update_worker c f ws = ws.
Proof.
  induction 1 as [|wk ws Hlt _ IH]; [reflexivity|].
  unfold update_worker in *. simpl. rewrite IH.
  replace (Nat.eqb (w_id wk) c) with false by (symmetry; apply Nat.eqb_neq; lia).
  reflexivity.
Qed.

Lemma find_worker_absent (c : nat) (ws : list Worker) :
  Forall (fun wk => (w_id wk < c)%nat) ws -> find_worker c ws = None.
Proof.
  induction 1 as [|wk ws Hlt _ IH]; [reflexivity|].
  unfold find_worker in *. simpl.
  replace (Nat.eqb (w_id wk) c) with false by (symmetry; apply Nat.eqb_neq; lia).
  exact IH.
Qed.

Lemma find_worker_app (c : nat) (ws ws' : list Worker) :
  find_worker c ws = None -> find_worker c (ws ++ ws') = find_worker c ws'.
Proof.
  unfold find_worker. induction ws as [|wk ws IH]; simpl; [reflexivity|].
  destruct (Nat.eqb (w_id wk) c); [discriminate | exact IH].
Qed.

(** What a returning [unobserve] does to the workers: at most one worker's
    state changes, and the worker counter stays. *)
Lemma unobserve_workers (b : bool) ev drain (w w' : World) :
  unobserve b ev drain w = Ret w' ->
  next_worker w' = next_worker w
  /\ (workers w' = workers w
      \/ exists c st, workers w' = update_worker c (set_state st) (workers w)).
Proof.
  intro H. unfold unobserve in H.
  destruct (observe_sender (session w)) as [c|].
  - simpl in H. destruct (find_worker c (workers w)) as [wk|]; [|discriminate].
    destruct (negb (WorkerState_eqb (w_state wk) Running)); [discriminate|].
    destruct (worker_on_terminate b (w_message_id wk) (w_path wk) ev drain) as [st sent].
    destruct (observe_thread (session w)) as [h|].
    + simpl in H. destruct (find_worker h _) as [wh|]; [|discriminate].
      destruct (w_state wh); try discriminate.
      injection H as <-. split; [reflexivity|]. right. exists c, st. reflexivity.
    + injection H as <-. split; [reflexivity|]. right. exists c, st. reflexivity.
  - injection H as <-. split; [reflexivity | left; reflexivity].
Qed.

(** In a reachable world every worker's id is below the worker counter. *)
Lemma reachable_fresh_ids (b : bool) (w : World) :
  reachable b w -> Forall (fun wk => (w_id wk < next_worker w)%nat) (workers w).
Proof.
  induction 1 as [peer | w env path r w' Hw IH Ho | w ev drain w' Hw IH Hu].
  - constructor.
  - destruct (observe_cases b env path w r w' Ho)
      as [(e & _ & Hws & Hn & _ & _) | (_ & w3 & Hws & Hn & Hs & _ & ->)].
    + rewrite Hws, Hn. exact IH.
    + unfold spawn_worker. simpl. rewrite Hn. apply Forall_app. split.
      * assert (IH' : Forall (fun wk => (w_id wk < S (next_worker w))%nat) (workers w3)).
        { rewrite Hws. eapply Forall_impl; [|exact IH]. intros wk Hlt; cbv beta in *; lia. }
        destruct (observe_sender (session w3)); [|exact IH'].
        apply (update_worker_ids_forall (fun i => (i < S (next_worker w))%nat));
          [reflexivity | exact IH'].
      * constructor; [simpl; lia | constructor].
  - destruct (unobserve_workers b ev drain w w' Hu) as [Hn [Hws | (c & st & Hws)]];
      rewrite Hn, Hws; [exact IH|].
    apply (update_worker_ids_forall (fun i => (i < next_worker w)%nat));
      [reflexivity | exact IH].
Qed.

Lemma running_update_absent_app (c : nat) (st : WorkerState) (ws : list Worker)
  (wk : Worker) :
  Forall (fun x => (w_id x < c)%nat) ws -> w_id wk = c ->
  update_worker c (set_state st) (ws ++ [wk]) = (ws ++ [set_state st wk])%list.
Proof.
  intros Hws Hid. unfold update_worker. rewrite map_app.
  fold (update_worker c (set_state st) ws). rewrite (update_worker_absent c _ ws Hws).
  simpl. rewrite Hid, Nat.eqb_refl. reflexivity.
Qed.

(** A successful [observe] on a reachable world, followed by [unobserve]
    with the deregistration sent and the drained read decoded, terminates
    the worker just spawned: it sends the deregistration request with the
    next message-id (2) on the observed path, joins the worker (which has
    exited), clears both handles, and leaves as many running workers as
    before the [observe]. *)
Theorem observe_then_unobserve (b : bool) (env : ObserveEnv) (path : string)
  (w w' : World) (p : Packet) :
  reachable b w ->
  observe b env path w = Ret (Ok tt, w') ->
  exists w'', unobserve b SentAll (RecvPacket p) w' = Ret w''
    /\ observe_sender (session w'') = None
    /\ observe_thread (session w'') = None
    /\ wire w'' = (wire w' ++ [request_message (deregister_request 2 path)])%list
    /\ find_worker (next_worker w) (workers w'')
       = Some (mkWorker (next_worker w) path 1 Exited true)
    /\ running_workers w'' = running_workers w.
Proof.
  intros Hw Ho.
  pose proof (reachable_fresh_ids b w Hw) as Hfresh.
  destruct (observe_cases b env path w (Ok tt) w' Ho)
    as [(e & He & _) | (_ & w3 & Hws & Hn & _ & _ & ->)]; [discriminate|].
  set (ws := match observe_sender (session w3) with
             | Some c => update_worker c drop_sender (workers w3)
             | None => workers w3
             end).
  assert (Hws' : Forall (fun wk => (w_id wk < next_worker w3)%nat) ws).
  { assert (H3 : Forall (fun wk => (w_id wk < next_worker w3)%nat) (workers w3))
      by (rewrite Hws, Hn; exact Hfresh).
    unfold ws. destruct (observe_sender (session w3)); [|exact H3].
    apply (update_worker_ids_forall (fun i => (i < next_worker w3)%nat));
      [reflexivity | exact H3]. }
  assert (Hrun : length (filter (fun wk => WorkerState_eqb (w_state wk) Running) ws)
                 = running_workers w).
  { unfold ws, running_workers. rewrite <- Hws.
    destruct (observe_sender (session w3)); [apply running_update_drop_sender | reflexivity]. }
  assert (Hterm : worker_on_terminate b 1 path SentAll (RecvPacket p)
                  = (Exited, [request_message (deregister_request 2 path)])).
  { unfold worker_on_terminate. rewrite (gen_message_id_small b 1) by lia. reflexivity. }
  assert (Hfind : forall wk, w_id wk = next_worker w3 ->
                  find_worker (next_worker w3) (ws ++ [wk]) = Some wk).
  { intros wk Hid. rewrite (find_worker_app _ _ _ (find_worker_absent _ _ Hws')).
    unfold find_worker. simpl. rewrite Hid, Nat.eqb_refl. reflexivity. }
  unfold unobserve, spawn_worker. fold ws. cbn [session observe_sender observe_thread
    workers set_session peer_addr read_timeout].
  rewrite (Hfind (mkWorker (next_worker w3) path 1 Running true) eq_refl).
  cbn [w_state w_message_id w_path WorkerState_eqb negb].
  rewrite Hterm. cbn [written log_wire set_workers workers session].
  rewrite (running_update_absent_app _ Exited ws
             (mkWorker (next_worker w3) path 1 Running true) Hws' eq_refl).
  rewrite (Hfind (set_state Exited (mkWorker (next_worker w3) path 1 Running true)) eq_refl).
  cbn [set_state w_state].
  eexists. split; [reflexivity|].
  cbn [session observe_sender observe_thread wire workers]. rewrite <- Hn.
  split; [reflexivity|]. split; [reflexivity|]. split; [reflexivity|]. split.
  - exact (Hfind (mkWorker (next_worker w3) path 1 Exited true) eq_refl).
  - unfold running_workers in *. cbn [workers set_session log_wire set_workers].
    rewrite filter_app, length_app, Hrun.
    simpl. lia.
Qed.

Lemma observe_then_unobserve_witness :
  exists w'', unobserve true SentAll (RecvPacket content_packet) observed_world = Ret w''
    /\ observe_sender (session w'') = None
    /\ observe_thread (session w'') = None
    /\ wire w'' = (wire observed_world ++ [request_message (deregister_request 2 "/temp")])%list
    /\ find_worker (next_worker (fresh_world localhost_peer)) (workers w'')
       = Some (mkWorker (next_worker (fresh_world localhost_peer)) "/temp" 1 Exited true)
    /\ running_workers w'' = running_workers (fresh_world localhost_peer).
Proof.
  apply (observe_then_unobserve true good_observe_env "/temp" (fresh_world localhost_peer)
           observed_world content_packet).
  - apply reach_new.
  - vm_compute. reflexivity.
Defined.

(** *** [get_with_timeout]: when it succeeds *)

(** A URL that does not parse is reported as it is, whatever the network
    would do (no connection is attempted); and [get_with_timeout] returns a
    response exactly when the URL parses, the session connects, the request
    is written whole, the timeout is installed and the first datagram read
    decodes, the response being that datagram. *)
Theorem get_with_timeout_ok_iff :
  (forall env url timeout e,
     parse_coap_url url = Err e -> get_with_timeout env url timeout = Ret (Err e))
  /\ (forall env url timeout r,
        get_with_timeout env url timeout = Ret (Ok r)
        <-> (exists hpp, parse_coap_url url = Ok hpp)
            /\ ge_connect env = Connected /\ ge_send env = SentAll
            /\ ge_set_timeout env = None
            /\ ge_recv env = RecvPacket (response_message r)).
Proof.
  split.
  - intros env url timeout e He. unfold get_with_timeout. rewrite He. reflexivity.
  - intros env url timeout r. unfold get_with_timeout.
    destruct (parse_coap_url url) as [[[h port] path]|e].
    + destruct env as [cn sd st rv]; cbn [ge_connect ge_send ge_set_timeout ge_recv].
      split.
      * intro H.
        destruct cn; try discriminate. destruct sd; simpl in H; try discriminate.
        destruct st; try discriminate. destruct rv as [p| |io]; simpl in H; try discriminate.
        injection H as <-. repeat split; [eexists; reflexivity].
      * intros (_ & -> & -> & -> & ->). destruct r. reflexivity.
    + split; [discriminate|]. intros ((hpp & Hp) & _). discriminate.
Qed.

Lemma get_with_timeout_ok_iff_witness :
  get_with_timeout (mkGetEnv Connected SentAll None (RecvPacket content_packet))
    "coap://127.0.0.1:5683/Rust" 1 = Ret (Ok (mkResponse content_packet)).
Proof.
  destruct get_with_timeout_ok_iff as [_ H].
  apply H. repeat split; [eexists; reflexivity].
Defined.

(** *** Dot segments in the path *)

Lemma split_slash_nonempty (s : string) : split_slash s <> [].
Proof.
  induction s as [|c s IH]; simpl; [discriminate|].
  destruct (Ascii.eqb c "/"); [discriminate|].
  destruct (split_slash s); [contradiction | discriminate].
Qed.

Lemma split_slash_app (a t : string) :
  forallb (fun c => negb (Ascii.eqb c "/")) (list_ascii_of_string a) = true ->
  split_slash (a ++ String "/" t) = a :: split_slash t.
Proof.
  induction a as [|c a IH]; simpl; intro H; [reflexivity|].
  apply andb_prop in H as [Hc Ha]. apply negb_true_iff in Hc.
  rewrite Hc, (IH Ha). reflexivity.
Qed.

Lemma parse_path_dot_dot (a r : string) :
  forallb (fun c => negb (in_path_set c)) (list_ascii_of_string a) = true ->
  forallb (fun c => negb (Ascii.eqb c "/")) (list_ascii_of_string a) = true ->
  dot_segment a = false ->
  parse_path (String "/" (a ++ "/../" ++ r)) = parse_path (String "/" r).
Proof.
  intros Ha1 Ha2 Hdot. unfold parse_path.
  replace (Ascii.eqb "/" "/") with true by reflexivity.
  replace (a ++ "/../" ++ r) with (a ++ String "/" (".." ++ String "/" r)) by reflexivity.
  rewrite (split_slash_app a _ Ha2), (split_slash_app ".." r eq_refl).
  cbn [map]. rewrite (percent_encode_plain a Ha1).
  replace (percent_encode "..") with ".." by reflexivity.
  unfold dot_segment in Hdot. apply orb_false_iff in Hdot as [Hs Hd].
  cbn [path_push]. rewrite Hd, Hs.
  destruct (map percent_encode (split_slash r)) as [|s0 rest] eqn:E.
  - apply (f_equal (@length string)) in E. rewrite length_map in E.
    destruct (split_slash r) eqn:E'; [exact (False_ind _ (split_slash_nonempty r E'))|].
    discriminate.
  - replace (is_double_dot "..") with true by reflexivity. reflexivity.
Qed.

(** A segment followed by [..] is removed from the path that
    [parse_coap_url] returns, as the url crate resolves it: the URL
    [coap://host/a/../rest] gives the path of [coap://host/rest], for every
    authority [host], every segment [a] that is not itself a dot segment and
    has no character to encode, and every [rest]. *)
Theorem parse_coap_url_dot_dot (hp a r : string) :
  forallb (fun c => negb (is_authority_end c)) (list_ascii_of_string hp) = true ->
  forallb (fun c => negb (in_path_set c || Ascii.eqb c "/")) (list_ascii_of_string a) = true ->
  dot_segment a = false ->
  parse_coap_url ("coap://" ++ hp ++ "/" ++ a ++ "/../" ++ r)
  = parse_coap_url ("coap://" ++ hp ++ "/" ++ r).
Proof.
  intros Hhp Ha Hdot.
  assert (Ha1 : forallb (fun c => negb (in_path_set c)) (list_ascii_of_string a) = true).
  { eapply forallb_weaken; [|exact Ha]. intros c Hc.
    apply negb_true_iff, orb_false_iff in Hc as [Hc _]. rewrite Hc. reflexivity. }
  assert (Ha2 : forallb (fun c => negb (Ascii.eqb c "/")) (list_ascii_of_string a) = true).
  { eapply forallb_weaken; [|exact Ha]. intros c Hc.
    apply negb_true_iff, orb_false_iff in Hc as [_ Hc]. rewrite Hc. reflexivity. }
  assert (Haq : forallb (fun c => negb (is_query_start c)) (list_ascii_of_string a) = true).
  { eapply forallb_weaken; [|exact Ha1]. intros c Hc.
    apply negb_true_iff in Hc. rewrite (path_char_not_query c Hc). reflexivity. }
  assert (Hspan : forall t, span is_authority_end (hp ++ String "/" t) = (hp, String "/" t)).
  { intro t. rewrite (span_app_skip _ _ _ Hhp). simpl. rewrite append_empty_r. reflexivity. }
  assert (Hq : span is_query_start ("/" ++ a ++ "/../" ++ r)
               = (("/" ++ a ++ "/../") ++ fst (span is_query_start r),
                  snd (span is_query_start r))).
  { replace ("/" ++ a ++ "/../" ++ r) with (("/" ++ a ++ "/../") ++ r)
      by (rewrite !append_assoc_str; reflexivity).
    apply span_app_skip.
    rewrite list_ascii_of_string_app, forallb_app. cbn [list_ascii_of_string append].
    simpl forallb. rewrite list_ascii_of_string_app, forallb_app, Haq. reflexivity. }
  unfold parse_coap_url. rewrite !url_parse_coap.
  replace (hp ++ "/" ++ a ++ "/../" ++ r) with (hp ++ String "/" (a ++ "/../" ++ r))
    by reflexivity.
  replace (hp ++ "/" ++ r) with (hp ++ String "/" r) by reflexivity.
  rewrite !Hspan.
  destruct (parse_host_port (after_last_at hp)) as [[host port]|]; [|reflexivity].
  replace (String "/" (a ++ "/../" ++ r)) with ("/" ++ a ++ "/../" ++ r) by reflexivity.
  rewrite Hq. cbn [fst].
  assert (Hq1 : span is_query_start (String "/" r)
                = (String "/" (fst (span is_query_start r)), snd (span is_query_start r))).
  { simpl. destruct (span is_query_start r); reflexivity. }
  rewrite Hq1. cbn [fst].
  rewrite !append_assoc_str.
  replace ("/" ++ a ++ "/../" ++ fst (span is_query_start r))
    with (String "/" (a ++ "/../" ++ fst (span is_query_start r))) by reflexivity.
  rewrite (parse_path_dot_dot a (fst (span is_query_start r)) Ha1 Ha2 Hdot).
  reflexivity.
Qed.

Lemma parse_coap_url_dot_dot_witness :
  parse_coap_url ("coap://" ++ "h" ++ "/" ++ "a" ++ "/../" ++ "b")
  = parse_coap_url ("coap://" ++ "h" ++ "/" ++ "b").
Proof. apply parse_coap_url_dot_dot; reflexivity. Defined.

(** *** Invariants of reachable worlds *)

Lemma update_worker_forall (P : Worker -> Prop) (c : nat) (f : Worker -> Worker)
  (ws : list Worker) :
  (forall wk, P wk -> P (f wk)) -> Forall P ws -> Forall P (update_worker c f ws).
Proof.
  intros Hf Hws. unfold update_worker. apply Forall_map.
  eapply Forall_impl; [|exact Hws]. intros wk Hp. simpl.
  destruct (Nat.eqb (w_id wk) c); [apply Hf|]; exact Hp.
Qed.

Lemma update_worker_map_ids (c : nat) (f : Worker -> Worker) (ws : list Worker) :
  (forall wk, w_id (f wk) = w_id wk) -> map w_id (update_worker c f ws) = map w_id ws.
Proof.
  intro Hf. unfold update_worker. rewrite map_map. apply map_ext.
  intro wk. destruct (Nat.eqb (w_id wk) c); [apply Hf | reflexivity].
Qed.

Lemma in_update_other (c : nat) (f : Worker -> Worker) (ws : list Worker) (wk : Worker) :
  In wk ws -> w_id wk <> c -> In wk (update_worker c f ws).
Proof.
  intros Hin Hne. unfold update_worker. apply in_map_iff. exists wk.
  split; [|exact Hin]. apply Nat.eqb_neq in Hne. rewrite Hne. reflexivity.
Qed.

Lemma find_worker_in (ws : list Worker) (wk : Worker) :
  NoDup (map w_id ws) -> In wk ws -> find_worker (w_id wk) ws = Some wk.
Proof.
  unfold find_worker. induction ws as [|a ws IH]; simpl; intros Hnd Hin; [contradiction|].
  inversion Hnd as [|x l Hnotin Hnd']; subst.
  destruct Hin as [-> | Hin].
  - rewrite Nat.eqb_refl. reflexivity.
  - replace (Nat.eqb (w_id a) (w_id wk)) with false.
    + exact (IH Hnd' Hin).
    + symmetry. apply Nat.eqb_neq. intro E. apply Hnotin. rewrite E.
      exact (in_map w_id ws wk Hin).
Qed.

(** A returning [unobserve] changes at most the worker its sender named. *)
Lemma unobserve_updates (b : bool) ev drain (w w' : World) :
  unobserve b ev drain w = Ret w' ->
  next_worker w' = next_worker w
  /\ (workers w' = workers w
      \/ exists c st, observe_sender (session w) = Some c
           /\ workers w' = update_worker c (set_state st) (workers w)).
Proof.
  intro H. unfold unobserve in H.
  destruct (observe_sender (session w)) as [c|].
  - simpl in H. destruct (find_worker c (workers w)) as [wk|]; [|discriminate].
    destruct (negb (WorkerState_eqb (w_state wk) Running)); [discriminate|].
    destruct (worker_on_terminate b (w_message_id wk) (w_path wk) ev drain) as [st sent].
    destruct (observe_thread (session w)) as [h|].
    + simpl in H. destruct (find_worker h _) as [wh|]; [|discriminate].
      destruct (w_state wh); try discriminate.
      injection H as <-. split; [reflexivity|]. right. exists c, st. split; reflexivity.
    + injection H as <-. split; [reflexivity|]. right. exists c, st. split; reflexivity.
  - injection H as <-. split; [reflexivity | left; reflexivity].
Qed.

(** In a reachable world no two workers share an id. *)
Lemma reachable_nodup (b : bool) (w : World) :
  reachable b w -> NoDup (map w_id (workers w)).
Proof.
  intro Hw. induction Hw as [peer | w env path r w' Hw IH Ho | w ev drain w' Hw IH Hu].
  - constructor.
  - pose proof (reachable_fresh_ids b w Hw) as Hfresh.
    destruct (observe_cases b env path w r w' Ho)
      as [(e & _ & Hws & _ & _ & _) | (_ & w3 & Hws & Hn & _ & _ & ->)].
    + rewrite Hws. exact IH.
    + unfold spawn_worker. cbn [workers]. rewrite map_app.
      assert (Hids : map w_id (match observe_sender (session w3) with
                               | Some c => update_worker c drop_sender (workers w3)
                               | None => workers w3
                               end) = map w_id (workers w)).
      { rewrite <- Hws. destruct (observe_sender (session w3));
          [apply update_worker_map_ids; reflexivity | reflexivity]. }
      rewrite Hids. cbn [map w_id]. apply NoDup_app; [exact IH | repeat constructor; simpl; tauto|].
      intros i Hi Hi'. destruct Hi' as [Hi' | []]. subst i. rewrite Hn in Hi.
      apply in_map_iff in Hi as (wk & Hid & Hin).
      pose proof (proj1 (Forall_forall _ _) Hfresh wk Hin) as Hlt. simpl in Hlt. lia.
  - destruct (unobserve_updates b ev drain w w' Hu) as [_ [Hws | (c & st & _ & Hws)]];
      rewrite Hws; [exact IH|].
    rewrite update_worker_map_ids by reflexivity. exact IH.
Qed.

Lemma reachable_find (b : bool) (w : World) (wk : Worker) :
  reachable b w -> In wk (workers w) -> find_worker (w_id wk) (workers w) = Some wk.
Proof. intros Hw Hin. exact (find_worker_in _ _ (reachable_nodup b w Hw) Hin). Qed.

(** In a reachable world every worker's message-id counter is 1: the one
    [gen_message_id] call of [observe] left it there. *)
Lemma reachable_counters (b : bool) (w : World) :
  reachable b w -> Forall (fun wk => w_message_id wk = 1) (workers w).
Proof.
  induction 1 as [peer | w env path r w' Hw IH Ho | w ev drain w' Hw IH Hu].
  - constructor.
  - destruct (observe_cases b env path w r w' Ho)
      as [(e & _ & Hws & _ & _ & _) | (_ & w3 & Hws & _ & _ & _ & ->)].
    + rewrite Hws. exact IH.
    + unfold spawn_worker. cbn [workers]. apply Forall_app. split.
      * rewrite Hws. destruct (observe_sender (session w3)); [|exact IH].
        apply update_worker_forall; [intros wk H; exact H | exact IH].
      * repeat constructor.
  - destruct (unobserve_updates b ev drain w w' Hu) as [_ [Hws | (c & st & _ & Hws)]];
      rewrite Hws; [exact IH|].
    apply update_worker_forall; [intros wk H; exact H | exact IH].
Qed.

(** *** The message-id counter *)

(** C8: one call to [gen_message_id] sets the counter to [(m + 1) mod 2^16]
    and returns it, for every counter value the program calls it with:
    [observe] calls it on its fresh counter 0, giving 1, and the worker it
    spawns calls it on the counter it captured, which in every reachable
    world is 1, giving 2, so the successive values of one observation
    strictly increase. The update holds for every [m] below [u16::MAX] in
    every build, and at [u16::MAX] too without overflow checks (the value
    wraps to 0); with overflow checks the increment at [u16::MAX] would
    panic, but no call of the program reaches that value. *)
Theorem gen_message_id_counter :
  (forall b m, 0 <= m < 65535 ->
     gen_message_id b m = Some ((m + 1) mod 65536, (m + 1) mod 65536))
  /\ (forall m, 0 <= m <= 65535 ->
        gen_message_id false m = Some ((m + 1) mod 65536, (m + 1) mod 65536))
  /\ (forall b w, reachable b w ->
        Forall (fun wk => w_message_id wk = 1
                  /\ gen_message_id b (w_message_id wk)
                     = Some ((w_message_id wk + 1) mod 65536, (w_message_id wk + 1) mod 65536))
               (workers w))
  /\ (forall b, gen_message_id b 0 = Some ((0 + 1) mod 65536, (0 + 1) mod 65536)
        /\ gen_message_id b 1 = Some ((1 + 1) mod 65536, (1 + 1) mod 65536)
        /\ (0 + 1) mod 65536 < (1 + 1) mod 65536).
Proof.
  assert (Hsmall : forall b m, 0 <= m < 65535 ->
            gen_message_id b m = Some ((m + 1) mod 65536, (m + 1) mod 65536)).
  { intros b m Hm. rewrite (gen_message_id_small b m Hm).
    rewrite Z.mod_small by lia. reflexivity. }
  split; [exact Hsmall|]. split.
  - intros m Hm. destruct (Z.eq_dec m 65535) as [-> | Hne]; [reflexivity|].
    apply Hsmall. lia.
  - split.
    + intros b w Hw. eapply Forall_impl; [|exact (reachable_counters b w Hw)].
      intros wk Hc. split; [exact Hc|]. rewrite Hc. reflexivity.
    + intro b. split; [apply Hsmall; lia|]. split; [apply Hsmall; lia|]. reflexivity.
Qed.

Lemma gen_message_id_counter_witness :
  gen_message_id true 41 = Some ((41 + 1) mod 65536, (41 + 1) mod 65536)
  /\ gen_message_id false 65535 = Some ((65535 + 1) mod 65536, (65535 + 1) mod 65536)
  /\ Forall (fun wk => w_message_id wk = 1
              /\ gen_message_id true (w_message_id wk)
                 = Some ((w_message_id wk + 1) mod 65536, (w_message_id wk + 1) mod 65536))
            (workers observed_world).
Proof.
  destruct gen_message_id_counter as (H1 & H2 & H3 & _).
  split; [apply H1; lia|]. split; [apply H2; lia|].
  apply H3. apply (reach_observe true (fresh_world localhost_peer) good_observe_env "/temp" (Ok tt)).
  - apply reach_new.
  - vm_compute. reflexivity.
Defined.

(** *** A second observation *)

(** C9 (amended): [observe] does not check for an existing observation.
    On a reachable session each successful call spawns one more running
    worker and points the session's sender and handle at it. Every worker
    that was running keeps running; the one the session pointed at loses its
    sender. The following [unobserve] and the session's [drop] leave each
    such worker as it is, still running, so the session keeps more than one
    live worker. *)
Theorem observe_adds_worker (b : bool) (env : ObserveEnv) (path : string)
  (w w' : World) :
  reachable b w ->
  observe b env path w = Ret (Ok tt, w') ->
  observe_sender (session w') = Some (next_worker w)
  /\ observe_thread (session w') = Some (next_worker w)
  /\ find_worker (next_worker w) (workers w')
     = Some (mkWorker (next_worker w) path 1 Running true)
  /\ running_workers w' = S (running_workers w)
  /\ (forall wk, In wk (workers w) -> w_state wk = Running ->
        exists wk', find_worker (w_id wk) (workers w') = Some wk'
          /\ w_state wk' = Running
          /\ (observe_sender (session w) = Some (w_id wk) -> wk' = drop_sender wk)
          /\ (forall ev drain w'', unobserve b ev drain w' = Ret w'' ->
                find_worker (w_id wk) (workers w'') = Some wk'
                /\ (forall ev' drain' w''', drop b ev' drain' w'' = Ret w''' ->
                      find_worker (w_id wk) (workers w''') = Some wk'))).
Proof.
  intros Hw Ho.
  pose proof (reach_observe b w env path (Ok tt) w' Hw Ho) as Hw'.
  pose proof (reachable_fresh_ids b w Hw) as Hfresh.
  destruct (observe_cases b env path w (Ok tt) w' Ho)
    as [(e & He & _) | (_ & w3 & Hws & Hn & Hs & _ & Hw3)]; [discriminate|].
  assert (Hsender : observe_sender (session w') = Some (next_worker w))
    by (rewrite Hw3; simpl; rewrite Hn; reflexivity).
  split; [exact Hsender|].
  split; [rewrite Hw3; simpl; rewrite Hn; reflexivity|].
  split.
  { assert (Hin : In (mkWorker (next_worker w) path 1 Running true) (workers w')).
    { rewrite Hw3. unfold spawn_worker. cbn [workers]. rewrite Hn.
      apply in_or_app. right. left. reflexivity. }
    exact (reachable_find b w' _ Hw' Hin). }
  split.
  { rewrite Hw3, running_workers_spawn. unfold running_workers. rewrite Hws. reflexivity. }
  intros wk Hin Hrun.
  set (wk' := match observe_sender (session w) with
              | Some c => if Nat.eqb (w_id wk) c then drop_sender wk else wk
              | None => wk
              end).
  assert (Hid : w_id wk' = w_id wk)
    by (unfold wk'; destruct (observe_sender (session w)) as [c|];
        [destruct (Nat.eqb (w_id wk) c)|]; reflexivity).
  assert (Hin' : In wk' (workers w')).
  { rewrite Hw3. unfold spawn_worker. cbn [workers]. apply in_or_app. left.
    rewrite Hs, Hws. unfold wk'. destruct (observe_sender (session w)) as [c|]; [|exact Hin].
    unfold update_worker.
    exact (in_map (fun wk0 => if Nat.eqb (w_id wk0) c then drop_sender wk0 else wk0) _ _ Hin). }
  assert (Hlt : (w_id wk < next_worker w)%nat)
    by exact (proj1 (Forall_forall _ _) Hfresh wk Hin).
  exists wk'.
  split; [rewrite <- Hid; exact (reachable_find b w' wk' Hw' Hin')|].
  split.
  { unfold wk'. destruct (observe_sender (session w)) as [c|];
      [destruct (Nat.eqb (w_id wk) c)|]; exact Hrun. }
  split.
  { intro Hsw. unfold wk'. rewrite Hsw, Nat.eqb_refl. reflexivity. }
  intros ev drain w'' Hu.
  pose proof (reach_unobserve b w' ev drain w'' Hw' Hu) as Hw''.
  assert (Hin'' : In wk' (workers w'')).
  { destruct (unobserve_updates b ev drain w' w'' Hu) as [_ [-> | (c & st & Hc & ->)]];
      [exact Hin'|].
    rewrite Hsender in Hc. injection Hc as <-.
    apply in_update_other; [exact Hin' | rewrite Hid; lia]. }
  assert (Hfind'' : find_worker (w_id wk) (workers w'') = Some wk')
    by (rewrite <- Hid; exact (reachable_find b w'' wk' Hw'' Hin'')).
  split; [exact Hfind''|].
  intros ev' drain' w''' Hd. unfold drop in Hd.
  destruct (unobserve_ret b ev drain w' w'' Hu) as (Hnone & _).
  destruct (unobserve_ret b ev' drain' w'' w''' Hd) as (_ & Hsame & _).
  rewrite (Hsame Hnone). exact Hfind''.
Qed.

Lemma observe_adds_worker_witness :
  running_workers twice_observed_world = 2%nat
  /\ observe_sender (session twice_observed_world) = Some 1%nat
  /\ exists wk', find_worker 0 (workers twice_observed_world) = Some wk'
       /\ w_state wk' = Running.
Proof.
  assert (Hr : reachable true observed_world).
  { apply (reach_observe true (fresh_world localhost_peer) good_observe_env "/temp" (Ok tt)).
    - apply reach_new.
    - vm_compute. reflexivity. }
  destruct (observe_adds_worker true good_observe_env "/temp" observed_world
              twice_observed_world Hr ltac:(vm_compute; reflexivity))
    as (H1 & _ & _ & H4 & H5).
  split; [rewrite H4; vm_compute; reflexivity|].
  split; [rewrite H1; vm_compute; reflexivity|].
  destruct (H5 (mkWorker 0 "/temp" 1 Running true) ltac:(vm_compute; left; reflexivity)
              eq_refl) as (wk' & Hf & Hrun & _).
  exists wk'. split; [exact Hf | exact Hrun].
Defined.
